(** * Email assistant: a shallow embedding of the Python sources

    The development follows the four source files:
    - [smtp.py]                   ([Module Smtp]),
    - [email_generation.py]       ([Module EmailGeneration]),
    - [email_agent_langchain.py] and [email_langgraph.py], whose two tools
      [generate_email_content] and [send_email_smtp] are textually the same
      in both files ([Module Tools]), and the graph loop of
      [email_langgraph.py] ([Module LangGraph]).

    Python values coming out of [json.loads] are modelled by [json]; Python
    exceptions by an error monad that also records every call made to the
    outside world (SMTP server, completion service, chat model, terminal).

    What is left to the libraries stays outside: the completion service,
    the chat model, [json.loads] and [json.dumps], the rendering of a
    message and the SMTP server are parameters ([World]).  The ReAct loop of
    [email_agent_langchain.py] runs inside the library class
    [AgentExecutor] and is not modelled; of that file the two tools are.
    The prebuilt [ToolNode] is taken to serve the calls of a reply one after
    the other.  Printed texts are given without the pictographs and blank
    lines of the source literals. *)

From Stdlib Require Import String Ascii List ZArith Bool Arith Lia DecimalString.
Import ListNotations.
Set Warnings "-register-all".
Local Open Scope list_scope.
Local Open Scope string_scope.

(** ** Python values *)

Module Py.

(** What [json.loads] can return.  Numbers are restricted to integers;
    strings are byte strings, so text is taken to be ASCII.  A [dict] keeps
    its insertion order, as CPython does and as [json.dumps] prints it. *)
Inductive json : Type :=
| JNull
| JBool (b : bool)
| JNum (z : Z)
| JStr (s : string)
| JArr (items : list json)
| JObj (fields : list (string * json)).

(** [bool(v)]: the truth value Python gives to [v] in [if v] and [not v]. *)
Definition truthy (v : json) : bool :=
  match v with
  | JNull => false
  | JBool b => b
  | JNum z => negb (Z.eqb z 0)
  | JStr s => negb (String.eqb s "")
  | JArr l => match l with [] => false | _ => true end
  | JObj l => match l with [] => false | _ => true end
  end.

(** [v == 'text'] for a string literal. *)
Definition eq_str (v : json) (lit : string) : bool :=
  match v with
  | JStr s => String.eqb s lit
  | _ => false
  end.

(** Dictionaries as association lists in insertion order. *)
Fixpoint dict_get (k : string) (d : list (string * json)) : option json :=
  match d with
  | [] => None
  | (k', v) :: d' => if String.eqb k k' then Some v else dict_get k d'
  end.

Definition dict_mem (k : string) (d : list (string * json)) : bool :=
  match dict_get k d with Some _ => true | None => false end.

(** [d[k] = v]: an existing key keeps its place, a new key goes last. *)
Fixpoint dict_set (k : string) (v : json) (d : list (string * json))
  : list (string * json) :=
  match d with
  | [] => [(k, v)]
  | (k', v') :: d' =>
      if String.eqb k k' then (k', v) :: d' else (k', v') :: dict_set k v d'
  end.

(** [d.get(k)] with the default [None], and [d.get(k, dflt)]. *)
Definition dict_get_or (k : string) (dflt : json) (d : list (string * json)) : json :=
  match dict_get k d with Some v => v | None => dflt end.

(** Characters of a string, each as a one-character string. *)
Fixpoint chars (s : string) : list string :=
  match s with
  | EmptyString => []
  | String c s' => String c EmptyString :: chars s'
  end.

(** [needle in hay] for two strings. *)
Fixpoint is_substring (needle hay : string) : bool :=
  if String.prefix needle hay then true
  else match hay with
       | EmptyString => false
       | String _ hay' => is_substring needle hay'
       end.

(** [str.isspace] on one ASCII character: TAB, LF, VT, FF, CR, FS, GS, RS,
    US and the space. *)
Definition is_space (c : ascii) : bool :=
  let n := nat_of_ascii c in
  ((9 <=? n) && (n <=? 13) || (28 <=? n) && (n <=? 32))%nat.

Fixpoint lstrip (s : string) : string :=
  match s with
  | EmptyString => EmptyString
  | String c s' => if is_space c then lstrip s' else s
  end.

(** Drops trailing white space; the result is empty exactly when the whole
    suffix is white space. *)
Fixpoint rstrip (s : string) : string :=
  match s with
  | EmptyString => EmptyString
  | String c s' =>
      match rstrip s' with
      | EmptyString => if is_space c then EmptyString else String c EmptyString
      | r => String c r
      end
  end.

(** [s.strip()] *)
Definition strip (s : string) : string := rstrip (lstrip s).

(** [s.split()]: the maximal runs of non-space characters.  [cur] is the
    word being read, in reverse. *)
Fixpoint split_aux (cur : list ascii) (s : string) : list string :=
  let flush := match cur with
               | [] => []
               | _ => [string_of_list_ascii (rev cur)]
               end in
  match s with
  | EmptyString => flush
  | String c s' =>
      if is_space c then (flush ++ split_aux [] s')%list
      else split_aux (c :: cur) s'
  end.

Definition split (s : string) : list string := split_aux [] s.

(** [s.lower()] on ASCII letters. *)
Definition lower_ascii (c : ascii) : ascii :=
  let n := nat_of_ascii c in
  if ((65 <=? n) && (n <=? 90))%nat then ascii_of_nat (n + 32)%nat else c.

Fixpoint lower (s : string) : string :=
  match s with
  | EmptyString => EmptyString
  | String c s' => String (lower_ascii c) (lower s')
  end.

(** [x in [a, b, c]] for strings. *)
Definition str_in (x : string) (l : list string) : bool :=
  existsb (String.eqb x) l.

(** Exceptions derived from [Exception].  [str(e)] is the carried text. *)
Inductive exn_class : Type :=
| JSONDecodeError
| SMTPAuthenticationError
| SMTPRecipientsRefused
| SMTPServerDisconnected
| TypeError
| AttributeError
| KeyError
| UnboundLocalError
| EOFError
| GraphRecursionError
| OtherException.

Record exn : Type := Exn { exn_cls : exn_class; exn_str : string }.

(** The result of evaluating a Python expression or block. *)
Inductive res (A : Type) : Type :=
| Ret (a : A)
| Raise (e : exn).
Arguments Ret {A} a.
Arguments Raise {A} e.

End Py.
Import Py.

(** ** The outside world *)

(** A message under construction: the headers in the order they were set,
    and the attached text parts.  Header values are whatever object the code
    assigned. *)
Record mime : Type := Mime {
  mime_headers : list (string * json);
  mime_parts : list string
}.

(** [MIMEMultipart()]: the constructor sets these two headers itself. *)
Definition MIMEMultipart : mime :=
  Mime [("Content-Type", JStr "multipart/mixed"); ("MIME-Version", JStr "1.0")] [].

(** [message[name] = value] appends a header. *)
Definition set_header (name : string) (value : json) (m : mime) : mime :=
  Mime (mime_headers m ++ [(name, value)]) (mime_parts m).

(** [message.attach(part)] *)
Definition attach (part : string) (m : mime) : mime :=
  Mime (mime_headers m) (mime_parts m ++ [part]).

(** Calls on an [smtplib.SMTP] session; the constructor opens the
    connection. *)
Inductive smtp_call : Type :=
| SmtpConnect (host : string) (port : Z)
| SmtpStarttls
| SmtpLogin (user password : json)
| SmtpSendmail (from_addr to_addrs : json) (msg : string)
| SmtpQuit.

(** Messages of [langchain_core.messages]. *)
Record tool_call : Type := ToolCall { tc_name : string; tc_input : string }.

Inductive message : Type :=
| HumanMessage (content : string)
| AIMessage (content : string) (tool_calls : list tool_call)
| ToolMessage (content : string).

(** One answer of the terminal to [input()]. *)
Inductive user_action : Type :=
| Line (text : string)
| CtrlC
| EndOfInput.

(** Everything the program does to, or learns from, the outside, with the
    outcome of each call.  [Invoke] marks the entry into one of the two
    tools. *)
Inductive effect : Type :=
| Smtp (c : smtp_call) (raised : option exn)
| ChatCompletion (model query : string) (content : res (option string))
| LLMInvoke (msgs : list message) (reply : res (string * list tool_call))
| Render (m : mime) (text : res string)
| Invoke (tool arg : string)
| Input (got : user_action)
| Print (text : string).

(** The collaborators the code calls but does not implement.  Each may
    answer differently as the run goes on, so it sees the effects so far
    (newest first).
    - [OPENAI_API_KEY]: [os.getenv("OPENAI_API_KEY")];
    - [OpenAI_init]: does [openai.OpenAI(api_key=...)] raise;
    - [ChatOpenAI_init]: does [ChatOpenAI(openai_api_key=...)] raise;
    - [chat_completion]: [client.chat.completions.create(...)] up to
      [.choices[0].message.content] (the prompt is a fixed text around the
      query, so the query stands for it);
    - [json_loads]: [inl msg] is a [JSONDecodeError] with that text;
    - [as_string]: [message.as_string()];
    - [smtp_server]: does this SMTP call raise;
    - [llm_invoke]: [llm.invoke(messages)] of the tool-bound chat model;
    - [system_message]: the instruction text of [call_model]. *)
Record World : Type := {
  OPENAI_API_KEY : option string;
  OpenAI_init : option string -> option exn;
  ChatOpenAI_init : option string -> option exn;
  chat_completion : list effect -> string -> string -> res (option string);
  json_loads : string -> string + json;
  json_dumps : json -> string;
  as_string : list effect -> mime -> res string;
  smtp_server : list effect -> smtp_call -> option exn;
  llm_invoke : list effect -> list message -> res (string * list tool_call);
  system_message : string
}.

(** ** Running Python: exceptions and the log of effects *)

(** A computation reads the effects so far, newest first, and returns its
    result with the effects it added, oldest first. *)
Definition Py (A : Type) : Type := list effect -> res A * list effect.

Definition ret {A} (a : A) : Py A := fun _ => (Ret a, []).

Definition raise {A} (e : exn) : Py A := fun _ => (Raise e, []).

Definition bind {A B} (c : Py A) (k : A -> Py B) : Py B :=
  fun h =>
    match c h with
    | (Ret a, es) => let (r, es') := k a (rev_append es h) in (r, (es ++ es')%list)
    | (Raise e, es) => (Raise e, es)
    end.

(** [try: c  except ... as e: handler e].  A handler that does not match
    raises [e] again. *)
Definition try_except {A} (c : Py A) (handler : exn -> Py A) : Py A :=
  fun h =>
    match c h with
    | (Ret a, es) => (Ret a, es)
    | (Raise e, es) => let (r, es') := handler e (rev_append es h) in (r, (es ++ es')%list)
    end.

Definition emit (ev : effect) : Py unit := fun _ => (Ret tt, [ev]).

Definition print (text : string) : Py unit := emit (Print text).

Declare Scope py_scope.
Delimit Scope py_scope with py.
Notation "x <- c ;; k" := (bind c (fun x => k))
  (at level 61, c at next level, right associativity) : py_scope.
Notation "c ;;; k" := (bind c (fun _ => k))
  (at level 61, right associativity) : py_scope.
Local Open Scope py_scope.

Definition type_error {A} (text : string) : Py A := raise (Exn TypeError text).
Definition attribute_error {A} (text : string) : Py A := raise (Exn AttributeError text).

(** [MIMEText(body, "plain")] starts with [body.encode('us-ascii')], which
    only a [str] has. *)
Definition MIMEText (body : json) : Py string :=
  match body with
  | JStr s => ret s
  | _ => attribute_error "object has no attribute 'encode'"
  end.

(** [c] with its exception, if any, turned into a value: used where a
    handler has to know how far the [try] block got. *)
Definition attempt {A} (c : Py A) : Py (res A) :=
  fun h => let (r, es) := c h in (Ret r, es).

(** *** Operations on objects, with the exceptions Python raises *)

(** [key in v] *)
Definition py_contains (key : string) (v : json) : Py bool :=
  match v with
  | JObj d => ret (dict_mem key d)
  | JArr l => ret (existsb (fun x => eq_str x key) l)
  | JStr s => ret (is_substring key s)
  | _ => type_error "argument is not iterable"
  end.

(** [v[key] = x], returning the updated object. *)
Definition py_setitem (key : string) (x : json) (v : json) : Py json :=
  match v with
  | JObj d => ret (JObj (dict_set key x d))
  | JArr _ => type_error "list indices must be integers or slices, not str"
  | _ => type_error "object does not support item assignment"
  end.

(** [v[key]] *)
Definition py_getitem (key : string) (v : json) : Py json :=
  match v with
  | JObj d =>
      match dict_get key d with
      | Some x => ret x
      | None => raise (Exn KeyError key)
      end
  | JArr _ => type_error "list indices must be integers or slices, not str"
  | JStr _ => type_error "string indices must be integers, not 'str'"
  | _ => type_error "object is not subscriptable"
  end.

(** [v.get(key, dflt)]; [v.get(key)] has [dflt = None]. *)
Definition py_get (key : string) (dflt : json) (v : json) : Py json :=
  match v with
  | JObj d => ret (dict_get_or key dflt d)
  | _ => attribute_error "object has no attribute 'get'"
  end.

(** [len(v)] *)
Definition py_len (v : json) : Py nat :=
  match v with
  | JStr s => ret (String.length s)
  | JArr l => ret (List.length l)
  | JObj d => ret (List.length d)
  | _ => type_error "object has no len()"
  end.

(** The strings of a list whose items are all [str]. *)
Fixpoint all_strings (l : list json) : option (list string) :=
  match l with
  | [] => Some []
  | JStr s :: l' =>
      match all_strings l' with
      | Some ss => Some (s :: ss)
      | None => None
      end
  | _ :: _ => None
  end.

(** [sep.join(v)]: over the items of a list, the characters of a string or
    the keys of a dict. *)
Definition py_join (sep : string) (v : json) : Py string :=
  match v with
  | JArr l =>
      match all_strings l with
      | Some ss => ret (String.concat sep ss)
      | None => type_error "sequence item: expected str instance"
      end
  | JStr s => ret (String.concat sep (chars s))
  | JObj d => ret (String.concat sep (map fst d))
  | _ => type_error "can only join an iterable"
  end.

(** [v.copy()]: lists and dicts have it. *)
Definition py_copy (v : json) : Py json :=
  match v with
  | JArr l => ret (JArr l)
  | JObj d => ret (JObj d)
  | _ => attribute_error "object has no attribute 'copy'"
  end.

(** [acc.extend(v)], returning the extended list. *)
Definition py_extend (acc : json) (v : json) : Py json :=
  match acc with
  | JArr l =>
      match v with
      | JArr l' => ret (JArr (l ++ l'))
      | JStr s => ret (JArr (l ++ map JStr (chars s)))
      | JObj d => ret (JArr (l ++ map JStr (map fst d)))
      | _ => type_error "object is not iterable"
      end
  | _ => attribute_error "object has no attribute 'extend'"
  end.

(** [content.strip()] on the completion's content, which may be [None]. *)
Definition str_strip (content : option string) : Py string :=
  match content with
  | Some s => ret (strip s)
  | None => attribute_error "'NoneType' object has no attribute 'strip'"
  end.

(** [not api_key] for what [os.getenv] returned. *)
Definition key_missing (api_key : option string) : bool :=
  match api_key with
  | None => true
  | Some k => String.eqb k ""
  end.

(** The loop [for field in required_fields: if field not in email_data:
    email_data[field] = default(field)]. *)
Fixpoint fill_missing (default : string -> json) (fields : list string)
    (email_data : json) : Py json :=
  match fields with
  | [] => ret email_data
  | field :: rest =>
      present <- py_contains field email_data ;;
      email_data <- (if negb present
                     then py_setitem field (default field) email_data
                     else ret email_data) ;;
      fill_missing default rest email_data
  end.

Definition required_fields : list string :=
  ["subject"; "body"; "to"; "cc"; "bcc"; "priority"].

Section WithWorld.

Variable w : World.

(** One call on the SMTP session. *)
Definition smtp (c : smtp_call) : Py unit :=
  fun h =>
    match smtp_server w h c with
    | None => (Ret tt, [Smtp c None])
    | Some e => (Raise e, [Smtp c (Some e)])
    end.

(** [message.as_string()] *)
Definition message_as_string (m : mime) : Py string :=
  fun h =>
    let r := as_string w h m in
    (r, [Render m r]).

(** [json.loads(text)] *)
Definition loads (text : string) : Py json :=
  match json_loads w text with
  | inl msg => raise (Exn JSONDecodeError msg)
  | inr v => ret v
  end.

(** [openai.OpenAI(api_key=api_key)] *)
Definition openai_client (api_key : option string) : Py unit :=
  match OpenAI_init w api_key with
  | None => ret tt
  | Some e => raise e
  end.

(** [client.chat.completions.create(model=model, ...)] followed by
    [.choices[0].message.content]. *)
Definition chat_completions_create (model query : string) : Py (option string) :=
  fun h =>
    let r := chat_completion w h model query in
    (r, [ChatCompletion model query r]).

End WithWorld.

(** ** smtp.py *)

Module Smtp.
Section Smtp.

Variable w : World.

(** [send_email(subject, body, sender_email, sender_password,
    recipient_email)] *)
Definition send_email (subject body sender_email sender_password recipient_email : json)
  : Py bool :=
  try_except
    (let message := MIMEMultipart in
     let message := set_header "From" sender_email message in
     let message := set_header "To" recipient_email message in
     let message := set_header "Subject" subject message in
     part <- MIMEText body ;;
     let message := attach part message in
     let smtp_server := "smtp.gmail.com" in
     let port := 587%Z in
     smtp w (SmtpConnect smtp_server port) ;;;
     smtp w SmtpStarttls ;;;
     smtp w (SmtpLogin sender_email sender_password) ;;;
     text <- message_as_string w message ;;
     smtp w (SmtpSendmail sender_email recipient_email text) ;;;
     smtp w SmtpQuit ;;;
     print "Email sent successfully!" ;;;
     ret true)
    (fun e =>
       print ("Failed to send email: " ++ exn_str e) ;;;
       ret false).

End Smtp.
End Smtp.

(** ** email_generation.py *)

Module EmailGeneration.
Section EmailGeneration.

Variable w : World.

(** [[] if field in ['to', 'cc', 'bcc'] else ""] *)
Definition default_of (field : string) : json :=
  if str_in field ["to"; "cc"; "bcc"] then JArr [] else JStr "".

(** The two [except] clauses.  [email_content] is [None] while the local
    variable of that name is still unbound. *)
Definition handler (email_content : option string) (e : exn) : Py json :=
  match exn_cls e with
  | JSONDecodeError =>
      match email_content with
      | Some raw =>
          ret (JObj [("error", JStr ("Failed to parse JSON response: " ++ exn_str e));
                     ("raw_response", JStr raw)])
      | None =>
          raise (Exn UnboundLocalError
                   "cannot access local variable 'email_content' where it is not associated with a value")
      end
  | _ => ret (JObj [("error", JStr ("API call failed: " ++ exn_str e))])
  end.

(** [generate_email(query, model="gpt-3.5-turbo")].  The client is built
    before the [try]; the [try] block is split where [email_content] gets
    bound. *)
Definition generate_email (query : string) (model : string) : Py json :=
  let api_key := OPENAI_API_KEY w in
  openai_client w api_key ;;;
  bound <- attempt (content <- chat_completions_create w model query ;;
                    str_strip content) ;;
  match bound with
  | Raise e => handler None e
  | Ret email_content =>
      try_except
        (email_data <- loads w email_content ;;
         email_data <- fill_missing default_of required_fields email_data ;;
         ret email_data)
        (handler (Some email_content))
  end.

End EmailGeneration.
End EmailGeneration.

(** ** The two tools of email_agent_langchain.py and email_langgraph.py

    [generate_email_content] and [send_email_smtp] have the same text in
    both files, and so have the four configuration constants. *)

Module Tools.

Definition SENDER_EMAIL : string := "".
Definition SENDER_PASSWORD : string := "".
Definition SMTP_SERVER : string := "smtp.gmail.com".
Definition SMTP_PORT : Z := 587.

(** The defaults of the repair loop of [generate_email_content]. *)
Definition default_of (field : string) : json :=
  if str_in field ["to"; "cc"; "bcc"] then JArr []
  else if String.eqb field "priority" then JStr "normal"
  else JStr "".

(** The priority headers of [send_email_smtp]. *)
Definition set_priority (priority : json) (message : mime) : mime :=
  if eq_str priority "high" then
    set_header "X-MSMail-Priority" (JStr "High")
      (set_header "X-Priority" (JStr "1") message)
  else if eq_str priority "low" then
    set_header "X-MSMail-Priority" (JStr "Low")
      (set_header "X-Priority" (JStr "5") message)
  else message.

Section Tools.

Variable w : World.

(** The [except] clauses of [generate_email_content]; [email_content] is
    [None] while ['email_content' in locals()] is false. *)
Definition generate_handler (email_content : option string) (e : exn) : Py string :=
  match exn_cls e with
  | JSONDecodeError =>
      ret (json_dumps w
             (JObj [("error", JStr ("Failed to parse JSON response: " ++ exn_str e));
                    ("raw_response",
                     JStr (match email_content with
                           | Some raw => raw
                           | None => "No response"
                           end))]))
  | _ =>
      ret (json_dumps w
             (JObj [("error", JStr ("Email generation failed: " ++ exn_str e))]))
  end.

(** [generate_email_content(query)].  The whole body is one [try]; it is
    split where [email_content] gets bound. *)
Definition generate_email_content (query : string) : Py string :=
  emit (Invoke "generate_email_content" query) ;;;
  let api_key := OPENAI_API_KEY w in
  if key_missing api_key then
    ret (json_dumps w
           (JObj [("error", JStr "OpenAI API key not found in environment variables")]))
  else
    bound <- attempt (openai_client w api_key ;;;
                      content <- chat_completions_create w "gpt-3.5-turbo" query ;;
                      str_strip content) ;;
    match bound with
    | Raise e => generate_handler None e
    | Ret email_content =>
        try_except
          (email_data <- loads w email_content ;;
           email_data <- fill_missing default_of required_fields email_data ;;
           to <- py_getitem "to" email_data ;;
           email_data <- (if negb (truthy to)
                          then py_setitem "to" (JArr [JStr "recipient@example.com"]) email_data
                          else ret email_data) ;;
           ret (json_dumps w email_data))
          (generate_handler (Some email_content))
    end.

(** The [except] clauses of [send_email_smtp]. *)
Definition send_handler (e : exn) : Py string :=
  match exn_cls e with
  | JSONDecodeError => ret ("Error: Invalid email data format - " ++ exn_str e)
  | SMTPAuthenticationError =>
      ret "Error: SMTP authentication failed. Please check your email credentials."
  | SMTPRecipientsRefused =>
      ret ("Error: Invalid recipient email addresses - " ++ exn_str e)
  | SMTPServerDisconnected =>
      ret "Error: SMTP server connection lost. Please try again."
  | _ => ret ("Error: Failed to send email - " ++ exn_str e)
  end.

(** [if email_data.get(key): message[name] = ", ".join(email_data[key])] *)
Definition add_address_header (name key : string) (email_data : json) (message : mime)
  : Py mime :=
  v <- py_get key JNull email_data ;;
  if truthy v then
    v <- py_getitem key email_data ;;
    line <- py_join ", " v ;;
    ret (set_header name (JStr line) message)
  else ret message.

(** [if email_data.get(key): all_recipients.extend(email_data[key])] *)
Definition extend_recipients (key : string) (email_data : json) (all_recipients : json)
  : Py json :=
  v <- py_get key JNull email_data ;;
  if truthy v then
    v <- py_getitem key email_data ;;
    py_extend all_recipients v
  else ret all_recipients.

(** The end of [send_email_smtp]: the SMTP session and the returned text. *)
Definition deliver (message : mime) (all_recipients : json) : Py string :=
  smtp w (SmtpConnect SMTP_SERVER SMTP_PORT) ;;;
  smtp w SmtpStarttls ;;;
  smtp w (SmtpLogin (JStr SENDER_EMAIL) (JStr SENDER_PASSWORD)) ;;;
  text <- message_as_string w message ;;
  smtp w (SmtpSendmail (JStr SENDER_EMAIL) all_recipients text) ;;;
  smtp w SmtpQuit ;;;
  joined <- py_join ", " all_recipients ;;
  ret ("Email sent successfully to: " ++ joined).

(** [send_email_smtp] between the three checks and the SMTP session: the
    message and the recipient list. *)
Definition build_and_send (email_data : json) : Py string :=
  let message := MIMEMultipart in
  let message := set_header "From" (JStr SENDER_EMAIL) message in
  to <- py_getitem "to" email_data ;;
  to_line <- py_join ", " to ;;
  let message := set_header "To" (JStr to_line) message in
  subject <- py_getitem "subject" email_data ;;
  let message := set_header "Subject" subject message in
  message <- add_address_header "Cc" "cc" email_data message ;;
  message <- add_address_header "Bcc" "bcc" email_data message ;;
  priority <- py_get "priority" (JStr "normal") email_data ;;
  let message := set_priority priority message in
  body <- py_getitem "body" email_data ;;
  part <- MIMEText body ;;
  let message := attach part message in
  to <- py_getitem "to" email_data ;;
  all_recipients <- py_copy to ;;
  all_recipients <- extend_recipients "cc" email_data all_recipients ;;
  all_recipients <- extend_recipients "bcc" email_data all_recipients ;;
  deliver message all_recipients.

(** [not email_data.get('to') or len(email_data['to']) == 0] *)
Definition no_recipient (email_data : json) : Py bool :=
  to <- py_get "to" JNull email_data ;;
  if negb (truthy to) then ret true
  else
    to <- py_getitem "to" email_data ;;
    n <- py_len to ;;
    ret (Nat.eqb n 0).

(** The [try] block of [send_email_smtp] once the text is parsed. *)
Definition send_parsed (email_data : json) : Py string :=
  subject <- py_get "subject" JNull email_data ;;
  if negb (truthy subject) then ret "Error: Email subject is required"
  else
    body <- py_get "body" JNull email_data ;;
    if negb (truthy body) then ret "Error: Email body is required"
    else
      missing <- no_recipient email_data ;;
      if missing then ret "Error: At least one recipient is required"
      else build_and_send email_data.

(** [send_email_smtp(email_data_json)] *)
Definition send_email_smtp (email_data_json : string) : Py string :=
  emit (Invoke "send_email_smtp" email_data_json) ;;;
  try_except
    (email_data <- loads w email_data_json ;;
     send_parsed email_data)
    send_handler.

End Tools.
End Tools.

(** ** email_langgraph.py: the graph and the interactive loop *)

Module LangGraph.

Inductive node : Type := AgentNode | ToolsNode.

(** What [should_continue] returns: ["tools"] or [END]. *)
Inductive route : Type := ToTools | END.

(** How [run_email_agent] stops on a finite script of terminal answers:
    after [break], or inside the next [input()] once the script is used up. *)
Inductive loop_exit : Type := Exited | AwaitingInput.

(** [messages[-1]] *)
Fixpoint last_message (messages : list message) : option message :=
  match messages with
  | [] => None
  | [m] => Some m
  | _ :: rest => last_message rest
  end.

Definition tool_calls_of (m : message) : list tool_call :=
  match m with
  | AIMessage _ calls => calls
  | _ => []
  end.

Definition content_of (m : message) : string :=
  match m with
  | HumanMessage c => c
  | AIMessage c _ => c
  | ToolMessage c => c
  end.

Definition is_AIMessage (m : message) : bool :=
  match m with
  | AIMessage _ _ => true
  | _ => false
  end.

(** [should_continue(state)] *)
Definition should_continue (messages : list message) : Py route :=
  match last_message messages with
  | None => raise (Exn OtherException "list index out of range")
  | Some last =>
      match tool_calls_of last with
      | _ :: _ => ret ToTools
      | [] => ret END
      end
  end.

(** ["-" * n] *)
Fixpoint times (c : string) (n : nat) : string :=
  match n with
  | O => ""
  | S n' => c ++ times c n'
  end.

(** The default [recursion_limit] of a compiled graph. *)
Definition recursion_limit : nat := 25.

Section LangGraph.

Variable w : World.

(** [call_model(state)]: the reply that the [add_messages] reducer then
    appends to the state. *)
Definition call_model (messages : list message) : Py message :=
  match ChatOpenAI_init w (OPENAI_API_KEY w) with
  | Some e => raise e
  | None =>
      let messages :=
        if match messages with [] => true | _ => false end
           || negb (existsb is_AIMessage messages)
        then HumanMessage (system_message w) :: messages
        else messages in
      fun h =>
        let r := llm_invoke w h messages in
        (match r with
         | Ret (content, calls) => Ret (AIMessage content calls)
         | Raise e => Raise e
         end,
         [LLMInvoke messages r])
  end.

(** One tool call as the prebuilt [ToolNode] serves it: the tool is looked
    up by name and its result becomes a [ToolMessage]. *)
Definition run_tool (call : tool_call) : Py message :=
  if String.eqb (tc_name call) "generate_email_content" then
    result <- Tools.generate_email_content w (tc_input call) ;;
    ret (ToolMessage result)
  else if String.eqb (tc_name call) "send_email_smtp" then
    result <- Tools.send_email_smtp w (tc_input call) ;;
    ret (ToolMessage result)
  else
    ret (ToolMessage ("Error: " ++ tc_name call ++ " is not a valid tool, try one of [generate_email_content, send_email_smtp]."))%string.

(** [tool_node]: the calls of the last message, served in their order. *)
Fixpoint tool_node (calls : list tool_call) : Py (list message) :=
  match calls with
  | [] => ret []
  | call :: rest =>
      m <- run_tool call ;;
      ms <- tool_node rest ;;
      ret (m :: ms)
  end.

(** The [print] of the loop body for the messages of the tools node. *)
Fixpoint print_tool_results (ms : list message) : Py unit :=
  match ms with
  | [] => ret tt
  | ToolMessage c :: rest => print ("Tool Result: " ++ c) ;;; print_tool_results rest
  | _ :: rest => print_tool_results rest
  end.

(** [for state in app.stream(initial_state): ...] from [node] on, with the
    printing of the loop body.  The graph: agent, then tools or END as
    [should_continue] says; tools, then agent.  [fuel] counts the node runs
    left before the graph raises. *)
Fixpoint stream (fuel : nat) (nd : node) (messages : list message) : Py unit :=
  match fuel with
  | O => raise (Exn GraphRecursionError "Recursion limit reached without hitting a stop condition")
  | S fuel' =>
      match nd with
      | AgentNode =>
          response <- call_model messages ;;
          let messages := (messages ++ [response])%list in
          (if truthy (JStr (content_of response))
           then print ("Agent: " ++ content_of response)
           else ret tt) ;;;
          next <- should_continue messages ;;
          match next with
          | ToTools => stream fuel' ToolsNode messages
          | END => ret tt
          end
      | ToolsNode =>
          let calls := match last_message messages with
                       | Some last => tool_calls_of last
                       | None => []
                       end in
          tool_messages <- tool_node calls ;;
          print_tool_results tool_messages ;;;
          stream fuel' AgentNode (messages ++ tool_messages)%list
      end
  end.

(** The [while True] loop of [run_email_agent] over the answers the
    terminal gives to the successive [input()] calls. *)
Fixpoint loop (inputs : list user_action) : Py loop_exit :=
  match inputs with
  | [] => ret AwaitingInput
  | answer :: rest =>
      emit (Input answer) ;;;
      match answer with
      | CtrlC => print "Goodbye!" ;;; ret Exited
      | EndOfInput =>
          print "Error: EOF when reading a line" ;;;
          loop rest
      | Line user_input =>
          if str_in (lower user_input) ["quit"; "exit"; "bye"] then
            print "Goodbye!" ;;; ret Exited
          else if negb (truthy (JStr (strip user_input))) then loop rest
          else if (List.length (split (strip user_input)) <? 2)%nat then
            print "Please be more specific. For example:" ;;;
            print "- 'Send email to john@company.com about the meeting'" ;;;
            print "- 'Write a thank you email for the interview'" ;;;
            print "- 'Send meeting reminder to the team'" ;;;
            loop rest
          else
            print "Processing your request..." ;;;
            try_except
              (let initial_state := [HumanMessage user_input] in
               stream recursion_limit AgentNode initial_state ;;;
               print (times "-" 50))
              (fun e => print ("Error: " ++ exn_str e)) ;;;
            loop rest
      end
  end.

(** [run_email_agent()] *)
Definition run_email_agent (inputs : list user_action) : Py loop_exit :=
  print "LangGraph Email Agent Started!" ;;;
  print "I can help you generate and send emails using natural language." ;;;
  print "Type 'quit' to exit." ;;;
  print "Example requests:" ;;;
  print "- 'Send a thank you email to john@company.com for the meeting'" ;;;
  print "- 'Write a follow-up email to the client about the proposal'" ;;;
  print "- 'Send a meeting reminder to the team'" ;;;
  loop inputs.


End LangGraph.
End LangGraph.

(** ** Reading a run: the notions the properties are stated with *)

Module Observe.

(** The SMTP calls of a run with their outcomes, in order. *)
Fixpoint smtp_log (es : list effect) : list (smtp_call * option exn) :=
  match es with
  | [] => []
  | Smtp c r :: es' => (c, r) :: smtp_log es'
  | _ :: es' => smtp_log es'
  end.

(** The whole transaction went through: connect, STARTTLS, login,
    sendmail and quit, in this order, none of them raising. *)
Definition transaction_completed (es : list effect) : bool :=
  match smtp_log es with
  | [(SmtpConnect _ _, None); (SmtpStarttls, None); (SmtpLogin _ _, None);
     (SmtpSendmail _ _ _, None); (SmtpQuit, None)] => true
  | _ => false
  end.

(** Some step of the send raised: an SMTP call or the rendering of the
    message. *)
Definition raising (ev : effect) : bool :=
  match ev with
  | Smtp _ (Some _) => true
  | Render _ (Raise _) => true
  | _ => false
  end.

Definition step_raised (es : list effect) : bool := existsb raising es.


(** The messages that were rendered for sending. *)
Fixpoint rendered (es : list effect) : list mime :=
  match es with
  | [] => []
  | Render m _ :: es' => m :: rendered es'
  | _ :: es' => rendered es'
  end.

(** The priority headers of a message. *)
Definition is_priority_header (h : string * json) : bool :=
  String.eqb (fst h) "X-Priority" || String.eqb (fst h) "X-MSMail-Priority".

Definition priority_markers (m : mime) : list (string * json) :=
  filter is_priority_header (mime_headers m).

(** The answers read from the terminal. *)
Fixpoint inputs_read (es : list effect) : list user_action :=
  match es with
  | [] => []
  | Input a :: es' => a :: inputs_read es'
  | _ :: es' => inputs_read es'
  end.

(** The completion calls of a run. *)
Fixpoint completion_calls (es : list effect) : nat :=
  match es with
  | [] => 0
  | ChatCompletion _ _ _ :: es' => S (completion_calls es')
  | _ :: es' => completion_calls es'
  end.

(** The three precondition checks in the order the specification gives
    them, with the text of the first one that fails. *)
Definition first_failing_check (d : list (string * json)) : option string :=
  if negb (truthy (dict_get_or "subject" JNull d)) then
    Some "Error: Email subject is required"
  else if negb (truthy (dict_get_or "body" JNull d)) then
    Some "Error: Email body is required"
  else if negb (truthy (dict_get_or "to" JNull d)) then
    Some "Error: At least one recipient is required"
  else None.

(** A draft ready to send: non-empty subject and body, a non-empty list of
    addresses in [to], and lists of addresses (or nothing) in [cc] and
    [bcc]. *)
Definition addresses (l : list string) : json := JArr (map JStr l).

Record valid_draft (d : list (string * json)) (to cc bcc : list string) : Prop := {
  vd_subject : exists s, dict_get "subject" d = Some (JStr s) /\ s <> "";
  vd_body : exists b, dict_get "body" d = Some (JStr b) /\ b <> "";
  vd_to : dict_get "to" d = Some (addresses to) /\ to <> [];
  vd_cc : dict_get_or "cc" (JArr []) d = addresses cc;
  vd_bcc : dict_get_or "bcc" (JArr []) d = addresses bcc
}.

(** The six fields of a draft are all there. *)
Definition has_all_fields (v : json) : bool :=
  match v with
  | JObj d => forallb (fun f => dict_mem f d) required_fields
  | _ => false
  end.

(** The reading of the confirmation gate that is easiest to satisfy: every
    entry into the send tool comes after an entry into the generation tool
    and after a line the user typed since then. *)
Definition confirmation_gated (es : list effect) : Prop :=
  forall pre arg post,
    es = (pre ++ Invoke "send_email_smtp" arg :: post)%list ->
    exists a query b line c,
      pre = (a ++ Invoke "generate_email_content" query :: b ++ Input (Line line) :: c)%list.

(** Effects that neither read the terminal nor ask the model. *)
Definition same_turn (ev : effect) : bool :=
  match ev with
  | Input _ => false
  | LLMInvoke _ _ => false
  | _ => true
  end.

(** What the graph does guarantee: every entry into the send tool serves a
    tool call of that name in the latest reply of the model, within the
    same turn. *)
Definition requested_by_model (es : list effect) : Prop :=
  forall pre arg post,
    es = (pre ++ Invoke "send_email_smtp" arg :: post)%list ->
    exists a msgs content calls b,
      pre = (a ++ LLMInvoke msgs (Ret (content, calls)) :: b)%list
      /\ In (ToolCall "send_email_smtp" arg) calls
      /\ forallb same_turn b = true.

(** The markers the specification attaches to a priority. *)
Definition markers_for (priority : json) : list (string * json) :=
  if eq_str priority "high" then
    [("X-Priority", JStr "1"); ("X-MSMail-Priority", JStr "High")]
  else if eq_str priority "low" then
    [("X-Priority", JStr "5"); ("X-MSMail-Priority", JStr "Low")]
  else [].

(** A partial-correctness triple with a trace condition: every effect of
    [c] satisfies [ok], and a returned value satisfies [Q]. *)
Definition traces {A} (ok : effect -> Prop) (Q : A -> Prop) (c : Py A) : Prop :=
  forall h,
    Forall ok (snd (c h)) /\ (forall a, fst (c h) = Ret a -> Q a).

(** The trace conditions used below: a rendered message carries exactly the
    priority headers [marks]; a [sendmail] call goes to [rcpts]. *)
Definition renders_with (marks : list (string * json)) (ev : effect) : Prop :=
  match ev with
  | Render m _ => priority_markers m = marks
  | _ => True
  end.


(** A computation without effects. *)
Definition silent {A} (c : Py A) : Prop := forall h, snd (c h) = [].

Definition tool_call_eqb (a b : tool_call) : bool :=
  String.eqb (tc_name a) (tc_name b) && String.eqb (tc_input a) (tc_input b).

(** A monitor for [requested_by_model].  [calls] holds the tool calls of the
    model's latest reply in the current turn; a new turn or a failed call to
    the model empties it.  [served] accepts a run when every entry into the
    send tool is among them, [latest_calls] is what the monitor holds at the
    end. *)
Fixpoint served (calls : list tool_call) (es : list effect) : bool :=
  match es with
  | [] => true
  | LLMInvoke _ (Ret (_, calls')) :: es' => served calls' es'
  | LLMInvoke _ (Raise _) :: es' => served [] es'
  | Input _ :: es' => served [] es'
  | Invoke tool arg :: es' =>
      (negb (String.eqb tool "send_email_smtp")
       || existsb (tool_call_eqb (ToolCall tool arg)) calls)
      && served calls es'
  | _ :: es' => served calls es'
  end.

Fixpoint latest_calls (calls : list tool_call) (es : list effect) : list tool_call :=
  match es with
  | [] => calls
  | LLMInvoke _ (Ret (_, calls')) :: es' => latest_calls calls' es'
  | LLMInvoke _ (Raise _) :: es' => latest_calls [] es'
  | Input _ :: es' => latest_calls [] es'
  | _ :: es' => latest_calls calls es'
  end.

(** The effects allowed while the tools node serves [calls]: no reading of
    the terminal, no call to the model, and the send tool only for one of
    the calls. *)
Definition within_calls (calls : list tool_call) (ev : effect) : Prop :=
  match ev with
  | Input _ => False
  | LLMInvoke _ _ => False
  | Invoke tool arg => tool = "send_email_smtp" -> In (ToolCall tool arg) calls
  | _ => True
  end.

(** A triple for the monitor: started with [calls], the run of [c] is
    accepted, and a returned value with the calls then held satisfies [Q]. *)
Definition monitored {A} (calls : list tool_call) (c : Py A)
    (Q : A -> list tool_call -> Prop) : Prop :=
  forall h,
    served calls (snd (c h)) = true
    /\ (forall a, fst (c h) = Ret a -> Q a (latest_calls calls (snd (c h)))).

(** The calls the tools node is about to serve are those the monitor holds. *)
Definition ready (nd : LangGraph.node) (messages : list message) (calls : list tool_call)
  : Prop :=
  match nd with
  | LangGraph.AgentNode => True
  | LangGraph.ToolsNode =>
      forall last, LangGraph.last_message messages = Some last ->
                   incl (LangGraph.tool_calls_of last) calls
  end.

End Observe.
Import Observe.

(** ** Sample worlds for the concrete runs *)

Module Sample.

Definition quote : string := String (ascii_of_nat 34) EmptyString.

(** [json.dumps] with the default separators, for strings that need no
    escaping. *)
Fixpoint dumps (v : json) : string :=
  match v with
  | JNull => "null"
  | JBool true => "true"
  | JBool false => "false"
  | JNum z => NilZero.string_of_int (Z.to_int z)
  | JStr s => quote ++ s ++ quote
  | JArr l => "[" ++ String.concat ", " (map dumps l) ++ "]"
  | JObj d =>
      "{" ++ String.concat ", "
               (map (fun '(k, x) => quote ++ k ++ quote ++ ": " ++ dumps x) d) ++ "}"
  end.

(** [json.loads] on the texts of a few known values; any other text is
    taken not to be JSON. *)
Fixpoint loads_among (known : list json) (text : string) : string + json :=
  match known with
  | [] => inl "Expecting value: line 1 column 1 (char 0)"
  | v :: rest => if String.eqb text (dumps v) then inr v else loads_among rest text
  end.

Definition thanks_draft : json :=
  JObj [("subject", JStr "Thank you");
        ("body", JStr "Thank you for the meeting.");
        ("to", JArr [JStr "pat@example.org"]);
        ("cc", JArr [JStr "lee@example.org"]);
        ("bcc", JArr [JStr "pat@example.org"]);
        ("priority", JStr "urgent")].

Definition high_draft : json :=
  JObj [("subject", JStr "Outage");
        ("body", JStr "The service is down.");
        ("to", JArr [JStr "ops@example.org"]);
        ("priority", JStr "high")].

Definition no_subject_draft : json :=
  JObj [("subject", JStr ""); ("body", JStr ""); ("to", JArr []);
        ("cc", JArr []); ("bcc", JArr []); ("priority", JStr "normal")].

Definition no_priority_reply : json :=
  JObj [("subject", JStr "Hi"); ("body", JStr "Hello");
        ("to", JArr [JStr "pat@example.org"])].

Definition no_recipient_reply : json :=
  JObj [("subject", JStr "Hi"); ("body", JStr "Hello")].

(** The message [send_email_smtp] builds from [high_draft]. *)
Definition high_message : mime :=
  Mime [("Content-Type", JStr "multipart/mixed"); ("MIME-Version", JStr "1.0");
        ("From", JStr ""); ("To", JStr "ops@example.org"); ("Subject", JStr "Outage");
        ("X-Priority", JStr "1"); ("X-MSMail-Priority", JStr "High")]
       ["The service is down."].

(** The message built from [thanks_draft]. *)
Definition thanks_message : mime :=
  Mime [("Content-Type", JStr "multipart/mixed"); ("MIME-Version", JStr "1.0");
        ("From", JStr ""); ("To", JStr "pat@example.org"); ("Subject", JStr "Thank you");
        ("Cc", JStr "lee@example.org"); ("Bcc", JStr "pat@example.org")]
       ["Thank you for the meeting."].

Definition known_values : list json :=
  [thanks_draft; high_draft; no_subject_draft; no_priority_reply; no_recipient_reply;
   JNull].

(** A world in which every collaborator works: the completion service
    answers [content], the model answers as [llm] says. *)
Definition world (api_key : option string) (content : string)
    (llm : list effect -> list message -> res (string * list tool_call)) : World :=
  {| OPENAI_API_KEY := api_key;
     OpenAI_init := fun _ => None;
     ChatOpenAI_init := fun _ => None;
     chat_completion := fun _ _ _ => Ret (Some content);
     json_loads := loads_among known_values;
     json_dumps := dumps;
     as_string := fun _ m => Ret (String.concat ", " (mime_parts m));
     smtp_server := fun _ _ => None;
     llm_invoke := llm;
     system_message := "You are an intelligent email assistant." |}.

(** A model that asks for the send tool in its first reply and then
    finishes. *)
Definition eager_llm (h : list effect) (msgs : list message)
  : res (string * list tool_call) :=
  match LangGraph.last_message msgs with
  | Some (HumanMessage _) => Ret ("", [ToolCall "send_email_smtp" (dumps thanks_draft)])
  | _ => Ret ("Done.", [])
  end.

Definition silent_llm (h : list effect) (msgs : list message)
  : res (string * list tool_call) := Ret ("How can I help?", []).

End Sample.

(** ** Further notions for reading a run *)

Module Protocol.

(** The five calls of an SMTP session by kind. *)
Inductive kind : Type := KConnect | KStarttls | KLogin | KSendmail | KQuit.

Definition kind_of (c : smtp_call) : kind :=
  match c with
  | SmtpConnect _ _ => KConnect
  | SmtpStarttls => KStarttls
  | SmtpLogin _ _ => KLogin
  | SmtpSendmail _ _ _ => KSendmail
  | SmtpQuit => KQuit
  end.

Definition kind_eqb (a b : kind) : bool :=
  match a, b with
  | KConnect, KConnect | KStarttls, KStarttls | KLogin, KLogin
  | KSendmail, KSendmail | KQuit, KQuit => true
  | _, _ => false
  end.

Definition session : list kind := [KConnect; KStarttls; KLogin; KSendmail; KQuit].

(** The log follows [expected] from its start: each call is the next one
    expected, it is made only when the one before did not raise, and
    nothing follows a call that raised. *)
Fixpoint in_order (expected : list kind) (log : list (smtp_call * option exn)) : bool :=
  match log with
  | [] => true
  | (c, r) :: log' =>
      match expected with
      | [] => false
      | k :: expected' =>
          kind_eqb (kind_of c) k
          && match r with
             | None => in_order expected' log'
             | Some _ => match log' with [] => true | _ => false end
             end
      end
  end.

(** The exception of a step that raised, if the run has one. *)
Definition raised_in (e : exn) (es : list effect) : Prop :=
  (exists c, In (Smtp c (Some e)) es) \/ (exists m, In (Render m (Raise e)) es).

(** Only the message [m] is rendered. *)
Definition renders_only (m : mime) (ev : effect) : Prop :=
  match ev with
  | Render m' _ => m' = m
  | _ => True
  end.

(** An address header: there when the list is not empty. *)
Definition address_header (name : string) (l : list string) : list (string * json) :=
  match l with
  | [] => []
  | _ => [(name, JStr (String.concat ", " l))]
  end.

End Protocol.

Module Turns.

(** The lines on which [run_email_agent] leaves its loop. *)
Definition exit_word (user_input : string) : bool :=
  str_in (lower user_input) ["quit"; "exit"; "bye"].

Definition is_exit (a : user_action) : bool :=
  match a with
  | Line user_input => exit_word user_input
  | CtrlC => true
  | EndOfInput => false
  end.

(** The answers up to and with the first one that leaves the loop. *)
Fixpoint until_exit (inputs : list user_action) : list user_action :=
  match inputs with
  | [] => []
  | a :: rest => if is_exit a then [a] else a :: until_exit rest
  end.



Definition no_input (ev : effect) : Prop :=
  match ev with
  | Input _ => False
  | _ => True
  end.

Definition no_model (ev : effect) : Prop :=
  match ev with
  | LLMInvoke _ _ => False
  | _ => True
  end.

(** What the two tools can do: anything but read the terminal or call the
    chat model. *)
Definition tool_effect (ev : effect) : Prop :=
  match ev with
  | Input _ => False
  | LLMInvoke _ _ => False
  | _ => True
  end.

(** Every call to the model gets a message list that satisfies [P]. *)
Definition asked_with (P : list message -> Prop) (ev : effect) : Prop :=
  match ev with
  | LLMInvoke msgs _ => P msgs
  | _ => True
  end.


(** The message lists given to the model, in order. *)
Fixpoint model_inputs (es : list effect) : list (list message) :=
  match es with
  | [] => []
  | LLMInvoke msgs _ :: es' => msgs :: model_inputs es'
  | _ :: es' => model_inputs es'
  end.

Definition model_calls (es : list effect) : nat := List.length (model_inputs es).

(** The outcome of the last call to the model, if there was one. *)
Fixpoint last_reply (es : list effect) : option (res (string * list tool_call)) :=
  match es with
  | [] => None
  | LLMInvoke _ r :: es' =>
      match last_reply es' with
      | Some r' => Some r'
      | None => Some r
      end
  | _ :: es' => last_reply es'
  end.



(** A later call of a turn: the user's line first, then replies and tool
    results, among them a reply of the model. *)
Definition continues (user_input : string) (msgs : list message) : Prop :=
  exists rest,
    msgs = HumanMessage user_input :: rest
    /\ existsb LangGraph.is_AIMessage rest = true.

End Turns.

Module Repair.

(** One round of the repair loop on a dict. *)
Definition fill_step (default : string -> json) (acc : list (string * json))
    (field : string) : list (string * json) :=
  if dict_mem field acc then acc else dict_set field (default field) acc.

(** The repair loop on a dict, as a fold over the required fields. *)
Definition fill (default : string -> json) (d : list (string * json))
  : list (string * json) :=
  fold_left (fill_step default) required_fields d.

(** The dict [generate_email_content] serialises: repaired, with the
    placeholder in an empty [to]. *)
Definition repaired (d : list (string * json)) : list (string * json) :=
  let filled := fill Tools.default_of d in
  if truthy (dict_get_or "to" JNull filled) then filled
  else dict_set "to" (JArr [JStr "recipient@example.com"]) filled.

End Repair.

(** ** More sample worlds *)

Module Sample2.

Definition bare_reply : json :=
  JObj [("subject", JStr "Hi"); ("body", JStr "Hello")].

Definition bare_repaired : json :=
  JObj [("subject", JStr "Hi"); ("body", JStr "Hello");
        ("to", JArr [JStr "recipient@example.com"]);
        ("cc", JArr []); ("bcc", JArr []); ("priority", JStr "normal")].

Definition list_reply : json := JArr [JStr "subject"; JStr "body"].

Definition known_values : list json :=
  [bare_reply; bare_repaired; list_reply; Sample.thanks_draft; JNum 7].

(** A world whose collaborators answer as given. *)
Definition world (completion : res (option string)) (client : option exn)
    (fault : smtp_call -> option exn)
    (llm : list effect -> list message -> res (string * list tool_call)) : World :=
  {| OPENAI_API_KEY := Some "sk-test";
     OpenAI_init := fun _ => client;
     ChatOpenAI_init := fun _ => None;
     chat_completion := fun _ _ _ => completion;
     json_loads := Sample.loads_among known_values;
     json_dumps := Sample.dumps;
     as_string := fun _ m => Ret (String.concat ", " (mime_parts m));
     smtp_server := fun _ c => fault c;
     llm_invoke := llm;
     system_message := "You are an intelligent email assistant." |}.

Definition no_fault (c : smtp_call) : option exn := None.

(** The server refuses the login. *)
Definition bad_login (c : smtp_call) : option exn :=
  match c with
  | SmtpLogin _ _ => Some (Exn SMTPAuthenticationError "(535, b'5.7.8 Username and Password not accepted')")
  | _ => None
  end.

(** A model that always asks for another draft. *)
Definition busy_llm (h : list effect) (msgs : list message)
  : res (string * list tool_call) :=
  Ret ("", [ToolCall "generate_email_content" "again"]).

End Sample2.

(** * Properties *)

(** ** The string helpers on examples *)

Example strip_ex : strip "  send  mail  " = "send  mail".
Proof. reflexivity. Qed.

Example split_ex : split "  send  mail to bob " = ["send"; "mail"; "to"; "bob"].
Proof. reflexivity. Qed.

Example lower_ex : lower "QuIt" = "quit".
Proof. reflexivity. Qed.

Example dumps_ex :
  Sample.dumps (JObj [("n", JNum 3); ("ok", JBool true); ("l", JArr [JNull])])
  = String.concat Sample.quote ["{"; "n"; ": 3, "; "ok"; ": true, "; "l"; ": [null]}"].
Proof. reflexivity. Qed.

(** ** Laws of the effect monad *)

Section MonadLaws.
Context {A B : Type}.

Lemma bind_ret_nil (c : Py A) (k : A -> Py B) h a :
  c h = (Ret a, []) -> bind c k h = k a h.
Proof. unfold bind. intros ->. cbn. destruct (k a h); reflexivity. Qed.

Lemma bind_unfold (c : Py A) (k : A -> Py B) h a es :
  c h = (Ret a, es) ->
  bind c k h = (fst (k a (rev_append es h)), (es ++ snd (k a (rev_append es h)))%list).
Proof. unfold bind. intros ->. destruct (k a _); reflexivity. Qed.

Lemma bind_raise (c : Py A) (k : A -> Py B) h e es :
  c h = (Raise e, es) -> bind c k h = (Raise e, es).
Proof. unfold bind. intros ->. reflexivity. Qed.

End MonadLaws.

(** ** smtp.py *)

Ltac split_oracle :=
  match goal with
  | |- context [match smtp_server ?w ?h ?c with _ => _ end] =>
      let E := fresh "E" in destruct (smtp_server w h c) eqn:E
  | |- context [match as_string ?w ?h ?m with _ => _ end] =>
      let E := fresh "E" in destruct (as_string w h m) eqn:E
  end.

Ltac solve_run :=
  eexists; eexists; split; [reflexivity | split; [reflexivity | cbn; try reflexivity]].

(** C9. [send_email] of smtp.py always returns a boolean: [True] exactly
    when connect, STARTTLS, login, sendmail and quit all went through, and
    [False] whenever a step raised; no exception leaves the function. *)
Theorem send_email_total (w : World) (subject body sender pw rcpt : json) (h : list effect) :
  exists b es,
    Smtp.send_email w subject body sender pw rcpt h = (Ret b, es)
    /\ b = transaction_completed es
    /\ (step_raised es = true -> b = false).
Proof.
  cbv [Smtp.send_email try_except bind smtp message_as_string MIMEText
       print emit ret raise attribute_error].
  destruct body; cbn; try solve_run.
  repeat (split_oracle; cbn); try solve_run.
  discriminate.
Qed.

(** ** The send tool: the three checks *)



Lemma all_strings_map (l : list string) : all_strings (map JStr l) = Some l.
Proof. induction l as [|s l IH]; cbn; [reflexivity | rewrite IH; reflexivity]. Qed.

Lemma truthy_addresses (l : list string) :
  truthy (addresses l) = match l with [] => false | _ => true end.
Proof. destruct l; reflexivity. Qed.

Lemma addresses_inj l l' : addresses l = addresses l' -> l = l'.
Proof.
  unfold addresses. intros H. injection H as H. revert l' H.
  induction l as [|x l IH]; intros [|y l'] H; cbn in H; try discriminate; auto.
  injection H as -> H. f_equal. auto.
Qed.

Section ValidDraft.
Variable w : World.
Variables (d : list (string * json)) (to cc bcc : list string).
Hypothesis valid : valid_draft d to cc bcc.

Lemma optional_list key l :
  dict_get_or key (JArr []) d = addresses l ->
  (dict_get key d = None /\ l = []) \/ dict_get key d = Some (addresses l).
Proof.
  unfold dict_get_or. destruct (dict_get key d) as [v|].
  - intros ->. right. reflexivity.
  - intros H. left. split; [reflexivity|]. destruct l; [reflexivity | discriminate].
Qed.

Lemma extend_recipients_valid key l acc h :
  dict_get_or key (JArr []) d = addresses l ->
  Tools.extend_recipients key (JObj d) (addresses acc) h = (Ret (addresses (acc ++ l)), []).
Proof.
  intros H. unfold Tools.extend_recipients, py_get, py_getitem, dict_get_or, bind, ret.
  destruct (optional_list _ _ H) as [[-> ->] | ->]; cbn.
  - rewrite app_nil_r. reflexivity.
  - destruct l as [|x l]; cbn.
    + rewrite app_nil_r. reflexivity.
    + unfold addresses. rewrite map_app. reflexivity.
Qed.


End ValidDraft.

(** ** Trace logic *)

Section Traces.
Variable ok : effect -> Prop.

Lemma traces_ret {A} (Q : A -> Prop) a : Q a -> traces ok Q (ret a).
Proof. intros HQ h. cbn. split; [constructor | intros ? [= <-]; exact HQ]. Qed.

Lemma traces_raise {A} (Q : A -> Prop) e : traces ok Q (raise e).
Proof. intros h. cbn. split; [constructor | discriminate]. Qed.

Lemma traces_bind {A B} (P : A -> Prop) (Q : B -> Prop) (c : Py A) (k : A -> Py B) :
  traces ok P c -> (forall a, P a -> traces ok Q (k a)) -> traces ok Q (bind c k).
Proof.
  intros Hc Hk h. destruct (Hc h) as [Hes Hv]. unfold bind.
  destruct (c h) as [[a|e] es]; cbn in *.
  - destruct (Hk a (Hv a eq_refl) (rev_append es h)) as [Hes' Hv'].
    destruct (k a _) as [r es']; cbn in *. split; [apply Forall_app; auto | exact Hv'].
  - split; [exact Hes | discriminate].
Qed.

Lemma traces_try {A} (Q : A -> Prop) (c : Py A) handler :
  traces ok Q c -> (forall e, traces ok Q (handler e)) -> traces ok Q (try_except c handler).
Proof.
  intros Hc Hh h. destruct (Hc h) as [Hes Hv]. unfold try_except.
  destruct (c h) as [[a|e] es]; cbn in *.
  - split; [exact Hes | exact Hv].
  - destruct (Hh e (rev_append es h)) as [Hes' Hv'].
    destruct (handler e _) as [r es']; cbn in *. split; [apply Forall_app; auto | exact Hv'].
Qed.

Lemma traces_weaken {A} (P Q : A -> Prop) (c : Py A) :
  traces ok P c -> (forall a, P a -> Q a) -> traces ok Q c.
Proof. intros Hc HPQ h. destruct (Hc h). split; auto. Qed.

Lemma traces_emit ev : ok ev -> traces ok (fun _ => True) (emit ev).
Proof. intros Hev h. cbn. split; [repeat constructor; exact Hev | auto]. Qed.

Lemma traces_smtp w c : (forall r, ok (Smtp c r)) -> traces ok (fun _ => True) (smtp w c).
Proof.
  intros Hev h. unfold smtp. destruct (smtp_server w h c); cbn;
    (split; [repeat constructor; apply Hev | auto]).
Qed.

Lemma traces_render w m :
  (forall r, ok (Render m r)) -> traces ok (fun _ => True) (message_as_string w m).
Proof. intros Hev h. cbn. split; [repeat constructor; apply Hev | auto]. Qed.

Lemma traces_silent {A} (c : Py A) : silent c -> traces ok (fun _ => True) c.
Proof. intros Hc h. rewrite Hc. split; [constructor | auto]. Qed.

End Traces.

Ltac silent_op := intros h; repeat (cbn; match goal with
   | |- context [match ?v with _ => _ end] => destruct v
   end); reflexivity.

Lemma silent_getitem k v : silent (py_getitem k v).
Proof. unfold py_getitem. silent_op. Qed.
Lemma silent_get k dflt v : silent (py_get k dflt v).
Proof. unfold py_get. silent_op. Qed.
Lemma silent_join sep v : silent (py_join sep v).
Proof. unfold py_join. silent_op. Qed.
Lemma silent_copy v : silent (py_copy v).
Proof. unfold py_copy. silent_op. Qed.
Lemma silent_extend acc v : silent (py_extend acc v).
Proof. unfold py_extend. silent_op. Qed.
Lemma silent_len v : silent (py_len v).
Proof. unfold py_len. silent_op. Qed.
Lemma silent_MIMEText v : silent (MIMEText v).
Proof. unfold MIMEText. silent_op. Qed.
Lemma silent_loads w text : silent (loads w text).
Proof. unfold loads. silent_op. Qed.
Lemma silent_send_handler e : silent (Tools.send_handler e).
Proof. unfold Tools.send_handler. silent_op. Qed.

(** ** Priority headers *)

Lemma markers_set_header name v m :
  is_priority_header (name, v) = false ->
  priority_markers (set_header name v m) = priority_markers m.
Proof.
  intros H. unfold priority_markers, set_header. cbn.
  rewrite filter_app. cbn. rewrite H. apply app_nil_r.
Qed.

Lemma markers_attach part m : priority_markers (attach part m) = priority_markers m.
Proof. reflexivity. Qed.

Lemma markers_set_priority p m :
  priority_markers (Tools.set_priority p m) = (priority_markers m ++ markers_for p)%list.
Proof.
  unfold Tools.set_priority, markers_for, priority_markers, set_header.
  destruct (eq_str p "high"); [| destruct (eq_str p "low")]; cbn;
    rewrite ?filter_app, ?app_nil_r; cbn; rewrite <- ?app_assoc; reflexivity.
Qed.

Section PriorityHeaders.
Variable w : World.
Variable ok : effect -> Prop.

Lemma traces_add_address_header name key email_data m :
  is_priority_header (name, JNull) = false ->
  traces ok (fun m' => priority_markers m' = priority_markers m)
    (Tools.add_address_header name key email_data m).
Proof.
  intros Hname. unfold Tools.add_address_header.
  eapply traces_bind; [apply traces_silent, silent_get |]. intros v _.
  destruct (truthy v).
  - eapply traces_bind; [apply traces_silent, silent_getitem |]. intros v' _.
    eapply traces_bind; [apply traces_silent, silent_join |]. intros line _.
    apply traces_ret. apply markers_set_header. exact Hname.
  - apply traces_ret. reflexivity.
Qed.

End PriorityHeaders.

Lemma traces_deliver_renders w marks m rcpts :
  priority_markers m = marks ->
  traces (renders_with marks) (fun _ => True) (Tools.deliver w m rcpts).
Proof.
  intros Hm. unfold Tools.deliver.
  repeat (eapply traces_bind;
          [first [apply traces_smtp; intros; exact I
                 | apply traces_render; intros; exact Hm
                 | apply traces_silent, silent_join] | intros ? _]).
  apply traces_ret. exact I.
Qed.

Lemma traces_extend_recipients ok key email_data acc :
  traces ok (fun _ => True) (Tools.extend_recipients key email_data acc).
Proof.
  unfold Tools.extend_recipients.
  eapply traces_bind; [apply traces_silent, silent_get |]. intros v _.
  destruct (truthy v).
  - eapply traces_bind; [apply traces_silent, silent_getitem |]. intros v' _.
    apply traces_silent, silent_extend.
  - apply traces_ret. exact I.
Qed.

Lemma traces_build_renders w d :
  traces (renders_with (markers_for (dict_get_or "priority" (JStr "normal") d)))
    (fun _ => True) (Tools.build_and_send w (JObj d)).
Proof.
  unfold Tools.build_and_send.
  eapply traces_bind; [apply traces_silent, silent_getitem |]. intros to _.
  eapply traces_bind; [apply traces_silent, silent_join |]. intros to_line _.
  eapply traces_bind; [apply traces_silent, silent_getitem |]. intros subject _.
  eapply traces_bind; [apply traces_add_address_header; reflexivity |]. intros m1 H1.
  eapply traces_bind; [apply traces_add_address_header; reflexivity |]. intros m2 H2.
  eapply traces_bind with (P := fun p => p = dict_get_or "priority" (JStr "normal") d).
  { intros h. cbn. split; [constructor | intros ? [= <-]; reflexivity]. }
  intros p ->.
  eapply traces_bind; [apply traces_silent, silent_getitem |]. intros body _.
  eapply traces_bind; [apply traces_silent, silent_MIMEText |]. intros part _.
  eapply traces_bind; [apply traces_silent, silent_getitem |]. intros to' _.
  eapply traces_bind; [apply traces_silent, silent_copy |]. intros rc _.
  eapply traces_bind; [apply traces_extend_recipients |]. intros rc1 _.
  eapply traces_bind; [apply traces_extend_recipients |]. intros rc2 _.
  apply traces_deliver_renders.
  rewrite markers_attach, markers_set_priority, H2, H1. reflexivity.
Qed.

Lemma silent_no_recipient email_data : silent (Tools.no_recipient email_data).
Proof.
  intros h. unfold Tools.no_recipient, bind.
  pose proof (silent_get "to" JNull email_data h) as H.
  destruct (py_get "to" JNull email_data h) as [[to|e] es]; cbn in H; subst; cbn; [|reflexivity].
  destruct (truthy to); cbn; [|reflexivity].
  pose proof (silent_getitem "to" email_data h) as H.
  destruct (py_getitem "to" email_data h) as [[to'|e] es]; cbn in H; subst; cbn; [|reflexivity].
  pose proof (silent_len to' h) as H.
  destruct (py_len to' h) as [[n|e] es]; cbn in H; subst; cbn; reflexivity.
Qed.

Lemma traces_send_parsed_renders w d :
  traces (renders_with (markers_for (dict_get_or "priority" (JStr "normal") d)))
    (fun _ => True) (Tools.send_parsed w (JObj d)).
Proof.
  unfold Tools.send_parsed.
  eapply traces_bind; [apply traces_silent, silent_get |]. intros subject _.
  destruct (truthy subject); cbn [negb]; [| apply traces_ret; exact I].
  eapply traces_bind; [apply traces_silent, silent_get |]. intros body _.
  destruct (truthy body); cbn [negb]; [| apply traces_ret; exact I].
  eapply traces_bind; [apply traces_silent, silent_no_recipient |]. intros [|] _.
  - apply traces_ret; exact I.
  - apply traces_build_renders.
Qed.

Lemma traces_send_email_smtp (ok : effect -> Prop) w text d :
  json_loads w text = inr (JObj d) ->
  (forall arg, ok (Invoke "send_email_smtp" arg)) ->
  traces ok (fun _ => True) (Tools.send_parsed w (JObj d)) ->
  traces ok (fun _ => True) (Tools.send_email_smtp w text).
Proof.
  intros Hparse Hinv Hbody. unfold Tools.send_email_smtp.
  eapply traces_bind; [apply traces_emit, Hinv |]. intros _ _.
  apply traces_try.
  - unfold loads. rewrite Hparse.
    eapply traces_bind with (P := fun v => v = JObj d).
    { intros h. cbn. split; [constructor | intros ? [= <-]; reflexivity]. }
    intros v ->. exact Hbody.
  - intros e. eapply traces_weaken; [apply traces_silent, silent_send_handler | auto].
Qed.

Lemma rendered_forall marks es m :
  Forall (renders_with marks) es -> In m (rendered es) -> priority_markers m = marks.
Proof.
  induction 1 as [|ev es Hev _ IH]; cbn; [tauto |].
  destruct ev; cbn in *; auto. intros [<- | Hin]; auto.
Qed.

(** C6. Whatever message [send_email_smtp] renders carries the priority
    headers that go with the draft's priority: [high] gives X-Priority 1
    and X-MSMail-Priority High, [low] gives 5 and Low, [normal] gives
    none. *)
Theorem priority_headers (w : World) (text : string) (d : list (string * json))
    (h : list effect) (m : mime) :
  json_loads w text = inr (JObj d) ->
  In m (rendered (snd (Tools.send_email_smtp w text h))) ->
  let priority := dict_get_or "priority" (JStr "normal") d in
  (priority = JStr "high" ->
   priority_markers m = [("X-Priority", JStr "1"); ("X-MSMail-Priority", JStr "High")])
  /\ (priority = JStr "low" ->
      priority_markers m = [("X-Priority", JStr "5"); ("X-MSMail-Priority", JStr "Low")])
  /\ (priority = JStr "normal" -> priority_markers m = []).
Proof.
  intros Hparse Hin priority.
  assert (Hm : priority_markers m = markers_for priority).
  { eapply rendered_forall; [| exact Hin].
    apply (traces_send_email_smtp _ w text d Hparse); [intros; exact I |].
    apply traces_send_parsed_renders. }
  rewrite Hm. repeat split; intros ->; reflexivity.
Qed.

(** ** Recipients *)

Lemma truthy_nonempty s : s <> "" -> truthy (JStr s) = true.
Proof. intros H. cbn. apply negb_true_iff, String.eqb_neq, H. Qed.

Lemma send_parsed_valid w d to cc bcc h :
  valid_draft d to cc bcc ->
  Tools.send_parsed w (JObj d) h = Tools.build_and_send w (JObj d) h.
Proof.
  intros [[s [Hs Hs']] [b [Hb Hb']] [Hto Hto'] _ _].
  unfold Tools.send_parsed.
  rewrite (bind_ret_nil _ _ h (JStr s))
    by (cbn; unfold dict_get_or; rewrite Hs; reflexivity).
  rewrite (truthy_nonempty s Hs'). cbn [negb].
  rewrite (bind_ret_nil _ _ h (JStr b))
    by (cbn; unfold dict_get_or; rewrite Hb; reflexivity).
  rewrite (truthy_nonempty b Hb'). cbn [negb].
  rewrite (bind_ret_nil _ _ h false); [reflexivity |].
  unfold Tools.no_recipient, py_get, py_getitem, dict_get_or, bind, ret.
  rewrite Hto. destruct to as [|x to]; [contradiction | reflexivity].
Qed.

Lemma send_email_smtp_parsed w text v h :
  json_loads w text = inr v ->
  let inner := Tools.send_parsed w v (Invoke "send_email_smtp" text :: h) in
  snd (Tools.send_email_smtp w text h) = Invoke "send_email_smtp" text :: snd inner
  /\ (forall x, fst inner = Ret x -> fst (Tools.send_email_smtp w text h) = Ret x).
Proof.
  intros Hparse inner. unfold Tools.send_email_smtp.
  rewrite (bind_unfold _ _ h tt [Invoke "send_email_smtp" text]) by reflexivity.
  cbn [rev_append fst snd app]. unfold try_except.
  rewrite (bind_ret_nil _ _ _ v) by (unfold loads; rewrite Hparse; reflexivity).
  fold inner. destruct inner as [[x|e] es]; cbn.
  - split; [reflexivity | auto].
  - pose proof (silent_send_handler e (rev_append es (Invoke "send_email_smtp" text :: h))) as Hs.
    destruct (Tools.send_handler e _) as [r es']. cbn in Hs. subst es'.
    rewrite app_nil_r. split; [reflexivity | discriminate].
Qed.





(** ** Other priorities *)

Lemma dict_get_set_other k k' v d :
  String.eqb k k' = false -> dict_get k (dict_set k' v d) = dict_get k d.
Proof.
  intros Hk. induction d as [|[k0 v0] d IH]; cbn.
  - rewrite Hk. reflexivity.
  - destruct (String.eqb k' k0) eqn:E; cbn.
    + apply String.eqb_eq in E. subst k0. rewrite Hk. reflexivity.
    + rewrite IH. reflexivity.
Qed.

Lemma dict_get_set_same k v d : dict_get k (dict_set k v d) = Some v.
Proof.
  induction d as [|[k0 v0] d IH]; cbn.
  - rewrite String.eqb_refl. reflexivity.
  - destruct (String.eqb k k0) eqn:E; cbn; rewrite E; [reflexivity | exact IH].
Qed.

Lemma eq_str_false v lit : v <> JStr lit -> eq_str v lit = false.
Proof.
  intros H. destruct v; cbn; try reflexivity.
  apply String.eqb_neq. intros ->. apply H. reflexivity.
Qed.

Lemma markers_for_other p : p <> JStr "high" -> p <> JStr "low" -> markers_for p = [].
Proof.
  intros Hh Hl. unfold markers_for.
  rewrite (eq_str_false _ _ Hh), (eq_str_false _ _ Hl). reflexivity.
Qed.

(** C10. With a priority that is neither ['high'] nor ['low'] (absent
    counts as ['normal']) no rendered message has a priority header, and
    the send runs exactly as it does on the same draft with priority
    ['normal']. *)
Theorem other_priority_as_normal (w : World) (text : string) (d : list (string * json))
    (h : list effect) :
  json_loads w text = inr (JObj d) ->
  let priority := dict_get_or "priority" (JStr "normal") d in
  priority <> JStr "high" ->
  priority <> JStr "low" ->
  (forall m, In m (rendered (snd (Tools.send_email_smtp w text h))) ->
             priority_markers m = [])
  /\ (forall h', Tools.send_parsed w (JObj d) h'
                 = Tools.send_parsed w (JObj (dict_set "priority" (JStr "normal") d)) h').
Proof.
  intros Hparse priority Hhigh Hlow. split.
  - intros m Hin. rewrite <- (markers_for_other priority Hhigh Hlow).
    eapply rendered_forall; [| exact Hin].
    apply (traces_send_email_smtp _ w text d Hparse); [intros; exact I |].
    apply traces_send_parsed_renders.
  - intros h'. apply eq_str_false in Hhigh, Hlow. unfold priority, dict_get_or in Hhigh, Hlow.
    cbv [Tools.send_parsed Tools.no_recipient Tools.build_and_send
         Tools.add_address_header Tools.extend_recipients py_get py_getitem
         dict_get_or Tools.set_priority bind ret].
    rewrite !dict_get_set_other by reflexivity.
    rewrite dict_get_set_same, Hhigh, Hlow. reflexivity.
Qed.

(** ** Synthesis *)

Lemma dict_mem_get f d : dict_mem f d = true <-> dict_get f d <> None.
Proof. unfold dict_mem. destruct (dict_get f d); split; congruence. Qed.

Lemma dict_get_set f f' v d :
  dict_get f (dict_set f' v d) = if String.eqb f f' then Some v else dict_get f d.
Proof.
  destruct (String.eqb f f') eqn:E.
  - apply String.eqb_eq in E. subst. apply dict_get_set_same.
  - apply dict_get_set_other, E.
Qed.

(** The repair loop on a dict: it returns a dict that has every required
    field, keeps what was there and gives each missing field its default. *)
Lemma fill_missing_obj default fields : forall d h,
  exists d',
    fill_missing default fields (JObj d) h = (Ret (JObj d'), [])
    /\ (forall f, In f fields -> dict_get f d' <> None)
    /\ (forall f v, dict_get f d = Some v -> dict_get f d' = Some v)
    /\ (forall f, In f fields -> dict_get f d = None -> dict_get f d' = Some (default f)).
Proof.
  induction fields as [|f0 rest IH]; intros d h.
  - exists d. cbn. repeat split; try tauto.
  - cbn [fill_missing]. unfold py_contains.
    rewrite (bind_ret_nil _ _ h (dict_mem f0 d)) by reflexivity.
    unfold dict_mem. destruct (dict_get f0 d) as [v0|] eqn:E0; cbn [negb].
    + rewrite (bind_ret_nil _ _ h (JObj d)) by reflexivity.
      destruct (IH d h) as [d' [Hrun [Hin [Hkeep Hdef]]]].
      exists d'. split; [exact Hrun |]. repeat split.
      * intros f [Heq | Hf]; [subst f; rewrite (Hkeep _ _ E0); discriminate | auto].
      * exact Hkeep.
      * intros f [Heq | Hf] Hnone; [subst f; congruence | auto].
    + rewrite (bind_ret_nil _ _ h (JObj (dict_set f0 (default f0) d))) by reflexivity.
      destruct (IH (dict_set f0 (default f0) d) h) as [d' [Hrun [Hin [Hkeep Hdef]]]].
      exists d'. split; [exact Hrun |]. repeat split.
      * intros f [Heq | Hf]; [subst f | auto].
        rewrite (Hkeep f0 (default f0)); [discriminate | apply dict_get_set_same].
      * intros f v Hf. apply Hkeep. rewrite dict_get_set.
        destruct (String.eqb f f0) eqn:E; [| exact Hf].
        apply String.eqb_eq in E. congruence.
      * intros f Hf Hnone. destruct (String.eqb f f0) eqn:E.
        -- apply String.eqb_eq in E. subst f. apply Hkeep, dict_get_set_same.
        -- destruct Hf as [Heq | Hf]; [subst f; rewrite String.eqb_refl in E; discriminate |].
           apply Hdef; [exact Hf |]. rewrite dict_get_set, E. exact Hnone.
Qed.

Lemma has_all_fields_intro d :
  (forall f, In f required_fields -> dict_get f d <> None) ->
  has_all_fields (JObj d) = true.
Proof.
  intros H. unfold has_all_fields. apply forallb_forall. intros f Hf.
  apply dict_mem_get, H, Hf.
Qed.

Section Synthesis.
Variable w : World.
Variables (query content : string) (d : list (string * json)).
Hypothesis key_present : key_missing (OPENAI_API_KEY w) = false.
Hypothesis client_ok : OpenAI_init w (OPENAI_API_KEY w) = None.
Hypothesis answers : forall h model, chat_completion w h model query = Ret (Some content).
Hypothesis parses : json_loads w (strip content) = inr (JObj d).

(** [generate_email_content]: a parsed object comes back with all six
    fields, each missing one at its default, and with the placeholder
    recipient when [to] is empty. *)
Lemma generate_email_content_repairs h :
  exists d',
    Tools.generate_email_content w query h
    = (Ret (json_dumps w (JObj d')),
       [Invoke "generate_email_content" query;
        ChatCompletion "gpt-3.5-turbo" query (Ret (Some content))])
    /\ has_all_fields (JObj d') = true
    /\ (forall f, In f required_fields -> f <> "to" -> dict_get f d = None ->
                  dict_get f d' = Some (Tools.default_of f))
    /\ (forall f v, f <> "to" -> dict_get f d = Some v -> dict_get f d' = Some v)
    /\ (truthy (dict_get_or "to" JNull d) = false ->
        dict_get "to" d' = Some (JArr [JStr "recipient@example.com"]))
    /\ (truthy (dict_get_or "to" JNull d) = true -> dict_get "to" d' = dict_get "to" d).
Proof.
  destruct (fill_missing_obj Tools.default_of required_fields d
              (ChatCompletion "gpt-3.5-turbo" query (Ret (Some content))
               :: Invoke "generate_email_content" query :: h))
    as [d1 [Hfill [Hin [Hkeep Hdef]]]].
  assert (Hto1 : exists to1, dict_get "to" d1 = Some to1).
  { destruct (dict_get "to" d1) eqn:E; [eauto |].
    exfalso. apply (Hin "to"); [cbn; tauto | exact E]. }
  destruct Hto1 as [to1 Hto1].
  assert (Hrun : forall d',
    (if negb (truthy to1) then JObj (dict_set "to" (JArr [JStr "recipient@example.com"]) d1)
     else JObj d1) = JObj d' ->
    Tools.generate_email_content w query h
    = (Ret (json_dumps w (JObj d')),
       [Invoke "generate_email_content" query;
        ChatCompletion "gpt-3.5-turbo" query (Ret (Some content))])).
  { intros d' Hd'. unfold Tools.generate_email_content.
    rewrite (bind_unfold _ _ h tt [Invoke "generate_email_content" query]) by reflexivity.
    cbn [rev_append]. rewrite key_present.
    rewrite (bind_unfold _ _ _ (Ret (strip content))
               [ChatCompletion "gpt-3.5-turbo" query (Ret (Some content))]).
    2: { cbv [attempt bind openai_client chat_completions_create str_strip ret].
         rewrite client_ok, answers. reflexivity. }
    cbn [rev_append]. unfold try_except.
    rewrite (bind_ret_nil _ _ _ (JObj d)) by (unfold loads; rewrite parses; reflexivity).
    rewrite (bind_ret_nil _ _ _ (JObj d1) Hfill).
    rewrite (bind_ret_nil _ _ _ to1) by (cbn; rewrite Hto1; reflexivity).
    rewrite (bind_ret_nil _ _ _ (JObj d')).
    2: { destruct (negb (truthy to1)); cbn in *; rewrite <- Hd'; reflexivity. }
    reflexivity. }
  assert (Hto_d : dict_get "to" d = None \/ dict_get "to" d = Some to1).
  { destruct (dict_get "to" d) as [v|] eqn:E; [right | left; reflexivity].
    rewrite (Hkeep _ _ E) in Hto1. congruence. }
  destruct (truthy to1) eqn:Htruthy.
  - exists d1. split; [apply Hrun; reflexivity |].
    split; [apply has_all_fields_intro, Hin |].
    split; [intros f Hf _ Hnone; apply Hdef; assumption |].
    split; [intros f v _ Hf; apply Hkeep, Hf |].
    unfold dict_get_or. destruct Hto_d as [Hn | Hs].
    + rewrite Hn. rewrite (Hdef "to") in Hto1 by (cbn; tauto || exact Hn).
      injection Hto1 as <-. discriminate.
    + rewrite Hs. split; [congruence | intros _; exact Hto1].
  - exists (dict_set "to" (JArr [JStr "recipient@example.com"]) d1).
    split; [apply Hrun; reflexivity |].
    split.
    { apply has_all_fields_intro. intros f Hf. rewrite dict_get_set.
      destruct (String.eqb f "to"); [discriminate | apply Hin, Hf]. }
    split.
    { intros f Hf Hne Hnone. rewrite dict_get_set.
      destruct (String.eqb f "to") eqn:E; [apply String.eqb_eq in E; contradiction |].
      apply Hdef; assumption. }
    split.
    { intros f v Hne Hf. rewrite dict_get_set.
      destruct (String.eqb f "to") eqn:E; [apply String.eqb_eq in E; contradiction |].
      apply Hkeep, Hf. }
    unfold dict_get_or. split.
    + intros _. apply dict_get_set_same.
    + destruct Hto_d as [Hn | Hs]; [rewrite Hn; discriminate | rewrite Hs; congruence].
Qed.

End Synthesis.

(** ** The send tool on the sample drafts *)

Lemma priority_headers_witness :
  let priority := dict_get_or "priority" (JStr "normal")
                    [("subject", JStr "Outage"); ("body", JStr "The service is down.");
                     ("to", JArr [JStr "ops@example.org"]); ("priority", JStr "high")] in
  (priority = JStr "high" ->
   priority_markers Sample.high_message
   = [("X-Priority", JStr "1"); ("X-MSMail-Priority", JStr "High")])
  /\ (priority = JStr "low" ->
      priority_markers Sample.high_message
      = [("X-Priority", JStr "5"); ("X-MSMail-Priority", JStr "Low")])
  /\ (priority = JStr "normal" -> priority_markers Sample.high_message = []).
Proof.
  apply (priority_headers (Sample.world None "" Sample.silent_llm)
           (Sample.dumps Sample.high_draft) _ [] Sample.high_message).
  - reflexivity.
  - vm_compute. left. reflexivity.
Defined.


Lemma other_priority_as_normal_witness :
  let w := Sample.world None "" Sample.silent_llm in
  let d := [("subject", JStr "Thank you");
            ("body", JStr "Thank you for the meeting.");
            ("to", JArr [JStr "pat@example.org"]);
            ("cc", JArr [JStr "lee@example.org"]);
            ("bcc", JArr [JStr "pat@example.org"]);
            ("priority", JStr "urgent")] in
  (forall m, In m (rendered (snd (Tools.send_email_smtp w (Sample.dumps Sample.thanks_draft) []))) ->
             priority_markers m = [])
  /\ (forall h', Tools.send_parsed w (JObj d) h'
                 = Tools.send_parsed w (JObj (dict_set "priority" (JStr "normal") d)) h').
Proof.
  apply (other_priority_as_normal (Sample.world None "" Sample.silent_llm)
           (Sample.dumps Sample.thanks_draft)).
  - reflexivity.
  - discriminate.
  - discriminate.
Defined.

Example thanks_run_completes :
  transaction_completed
    (snd (Tools.send_email_smtp (Sample.world None "" Sample.silent_llm)
            (Sample.dumps Sample.thanks_draft) [])) = true
  /\ rendered
       (snd (Tools.send_email_smtp (Sample.world None "" Sample.silent_llm)
               (Sample.dumps Sample.thanks_draft) [])) = [Sample.thanks_message].
Proof. split; reflexivity. Qed.

(** ** Synthesis: the two functions compared *)

Section SynthesisOfEmailGeneration.
Variable w : World.
Variables (query content : string) (d : list (string * json)).
Hypothesis client_ok : OpenAI_init w (OPENAI_API_KEY w) = None.
Hypothesis answers : forall h model, chat_completion w h model query = Ret (Some content).
Hypothesis parses : json_loads w (strip content) = inr (JObj d).

(** [generate_email]: a parsed object comes back with all six fields, but
    the default of every field that is not a recipient list is the empty
    string, and an empty [to] stays empty. *)
Lemma generate_email_repairs model h :
  exists d',
    EmailGeneration.generate_email w query model h
    = (Ret (JObj d'), [ChatCompletion model query (Ret (Some content))])
    /\ has_all_fields (JObj d') = true
    /\ (forall f, In f required_fields -> dict_get f d = None ->
                  dict_get f d' = Some (EmailGeneration.default_of f))
    /\ (forall f v, dict_get f d = Some v -> dict_get f d' = Some v).
Proof.
  destruct (fill_missing_obj EmailGeneration.default_of required_fields d
              (ChatCompletion model query (Ret (Some content)) :: h))
    as [d1 [Hfill [Hin [Hkeep Hdef]]]].
  exists d1. split.
  - unfold EmailGeneration.generate_email.
    rewrite (bind_ret_nil _ _ h tt) by (unfold openai_client; rewrite client_ok; reflexivity).
    rewrite (bind_unfold _ _ _ (Ret (strip content))
               [ChatCompletion model query (Ret (Some content))]).
    2: { cbv [attempt bind chat_completions_create str_strip ret].
         rewrite answers. reflexivity. }
    cbn [rev_append]. unfold try_except.
    rewrite (bind_ret_nil _ _ _ (JObj d)) by (unfold loads; rewrite parses; reflexivity).
    rewrite (bind_ret_nil _ _ _ (JObj d1) Hfill). reflexivity.
  - split; [apply has_all_fields_intro, Hin |]. split; assumption.
Qed.

End SynthesisOfEmailGeneration.



(** C2, on the input where it fails.  The completion leaves out [cc], [bcc]
    and [priority]: [generate_email] fills [priority] with the empty
    string, where [generate_email_content] on the same answer fills it
    with ['normal']. *)
Theorem generate_email_priority_default :
  let w := Sample.world (Some "sk-test") (Sample.dumps Sample.no_priority_reply)
             Sample.silent_llm in
  fst (EmailGeneration.generate_email w "say hi to pat" "gpt-3.5-turbo" [])
  = Ret (JObj [("subject", JStr "Hi"); ("body", JStr "Hello");
               ("to", JArr [JStr "pat@example.org"]);
               ("cc", JArr []); ("bcc", JArr []); ("priority", JStr "")])
  /\ fst (Tools.generate_email_content w "say hi to pat" [])
     = Ret (Sample.dumps
              (JObj [("subject", JStr "Hi"); ("body", JStr "Hello");
                     ("to", JArr [JStr "pat@example.org"]);
                     ("cc", JArr []); ("bcc", JArr []); ("priority", JStr "normal")])).
Proof. split; reflexivity. Qed.

(** C3, on the input where it fails.  The completion names no recipient:
    [generate_email] returns the draft with an empty [to], where
    [generate_email_content] on the same answer puts the placeholder
    address. *)
Theorem generate_email_empty_recipients :
  let w := Sample.world (Some "sk-test") (Sample.dumps Sample.no_recipient_reply)
             Sample.silent_llm in
  (exists d,
      fst (EmailGeneration.generate_email w "say hi" "gpt-3.5-turbo" []) = Ret (JObj d)
      /\ dict_get "to" d = Some (JArr []))
  /\ (exists d,
         fst (Tools.generate_email_content w "say hi" []) = Ret (Sample.dumps (JObj d))
         /\ dict_get "to" d = Some (JArr [JStr "recipient@example.com"])).
Proof. split; eexists; split; reflexivity. Qed.




(** ** The graph loop: who asks for a send *)

Lemma served_app c es1 es2 :
  served c (es1 ++ es2) = served c es1 && served (latest_calls c es1) es2.
Proof.
  revert c. induction es1 as [|ev es1 IH]; intros c; cbn; [reflexivity |].
  destruct ev as [| |msgs [[content calls]|e]| | | |]; cbn; rewrite ?IH, ?andb_assoc; reflexivity.
Qed.

Lemma latest_calls_app c es1 es2 :
  latest_calls c (es1 ++ es2) = latest_calls (latest_calls c es1) es2.
Proof.
  revert c. induction es1 as [|ev es1 IH]; intros c; cbn; [reflexivity |].
  destruct ev as [| |msgs [[content calls]|e]| | | |]; cbn; rewrite ?IH; reflexivity.
Qed.

Lemma tool_call_eqb_eq a b : tool_call_eqb a b = true <-> a = b.
Proof.
  destruct a as [n i], b as [n' i']. unfold tool_call_eqb. cbn.
  rewrite andb_true_iff, !String.eqb_eq. split; [intros [-> ->]; reflexivity | intros [= -> ->]; auto].
Qed.

Lemma existsb_tool_call call calls :
  existsb (tool_call_eqb call) calls = true <-> In call calls.
Proof.
  rewrite existsb_exists. split.
  - intros [x [Hin Heq]]. apply tool_call_eqb_eq in Heq. subst. exact Hin.
  - intros Hin. exists call. split; [exact Hin | apply tool_call_eqb_eq; reflexivity].
Qed.

Lemma served_within calls es :
  Forall (within_calls calls) es ->
  served calls es = true /\ latest_calls calls es = calls.
Proof.
  induction 1 as [|ev es Hev _ [IH1 IH2]]; cbn; [auto |].
  destruct ev as [| |msgs r| |tool arg| |]; cbn in Hev; try contradiction; auto.
  split; [| exact IH2]. rewrite IH1, andb_true_r.
  destruct (String.eqb tool "send_email_smtp") eqn:E; [| reflexivity].
  apply String.eqb_eq in E. cbn. apply existsb_tool_call, Hev, E.
Qed.

Section Monitored.
Context {A B : Type}.

Lemma monitored_bind calls (c : Py A) (k : A -> Py B) P Q :
  monitored calls c P ->
  (forall a calls', P a calls' -> monitored calls' (k a) Q) ->
  monitored calls (bind c k) Q.
Proof.
  intros Hc Hk h. destruct (Hc h) as [Hs Hv]. unfold bind.
  destruct (c h) as [[a|e] es]; cbn in *.
  - destruct (Hk a _ (Hv a eq_refl) (rev_append es h)) as [Hs' Hv'].
    destruct (k a _) as [r es']; cbn in *.
    rewrite served_app, latest_calls_app, Hs, Hs'. auto.
  - split; [exact Hs | discriminate].
Qed.

Lemma monitored_try calls (c : Py A) handler Q :
  monitored calls c Q ->
  (forall e calls', monitored calls' (handler e) Q) ->
  monitored calls (try_except c handler) Q.
Proof.
  intros Hc Hh h. destruct (Hc h) as [Hs Hv]. unfold try_except.
  destruct (c h) as [[a|e] es]; cbn in *.
  - auto.
  - destruct (Hh e (latest_calls calls es) (rev_append es h)) as [Hs' Hv'].
    destruct (handler e _) as [r es']; cbn in *.
    rewrite served_app, latest_calls_app, Hs, Hs'. auto.
Qed.

Lemma monitored_weaken calls (c : Py A) (P Q : A -> list tool_call -> Prop) :
  monitored calls c P -> (forall a calls', P a calls' -> Q a calls') -> monitored calls c Q.
Proof. intros Hc HPQ h. destruct (Hc h). split; auto. Qed.

Lemma monitored_traces calls (c : Py A) (P : A -> Prop) :
  traces (within_calls calls) P c ->
  monitored calls c (fun a calls' => P a /\ calls' = calls).
Proof.
  intros Hc h. destruct (Hc h) as [Hes Hv].
  destruct (served_within _ _ Hes) as [Hs Hl]. rewrite Hs, Hl. auto.
Qed.

End Monitored.

Lemma monitored_ret {A} calls (a : A) (Q : A -> list tool_call -> Prop) :
  Q a calls -> monitored calls (ret a) Q.
Proof. intros HQ h. cbn. split; [reflexivity | intros ? [= <-]; exact HQ]. Qed.

Lemma monitored_print calls text :
  monitored calls (print text) (fun _ calls' => calls' = calls).
Proof. intros h. cbn. auto. Qed.

(** *** The two tools stay within the calls they serve *)

Lemma silent_contains k v : silent (py_contains k v).
Proof. unfold py_contains. silent_op. Qed.
Lemma silent_setitem k x v : silent (py_setitem k x v).
Proof. unfold py_setitem. silent_op. Qed.
Lemma silent_str_strip c : silent (str_strip c).
Proof. unfold str_strip. silent_op. Qed.
Lemma silent_openai_client w k : silent (openai_client w k).
Proof. unfold openai_client. silent_op. Qed.
Lemma silent_generate_handler w c e : silent (Tools.generate_handler w c e).
Proof. unfold Tools.generate_handler. silent_op. Qed.
Lemma silent_ret {A} (a : A) : silent (ret a).
Proof. intros h. reflexivity. Qed.

Section ToolTraces.
Variable w : World.
Variable ok : effect -> Prop.
Hypothesis ok_smtp : forall c r, ok (Smtp c r).
Hypothesis ok_render : forall m r, ok (Render m r).
Hypothesis ok_completion : forall model query r, ok (ChatCompletion model query r).
Hypothesis ok_print : forall text, ok (Print text).

Ltac step :=
  first
    [ apply traces_ret; exact I
    | apply traces_silent;
      first [ apply silent_get | apply silent_getitem | apply silent_join
            | apply silent_copy | apply silent_extend | apply silent_len
            | apply silent_MIMEText | apply silent_loads | apply silent_contains
            | apply silent_setitem | apply silent_str_strip
            | apply silent_openai_client | apply silent_no_recipient
            | apply silent_ret ]
    | apply traces_smtp; intros; apply ok_smtp
    | apply traces_render; intros; apply ok_render
    | apply traces_extend_recipients ].

Lemma traces_add_header name key email_data m :
  traces ok (fun _ => True) (Tools.add_address_header name key email_data m).
Proof.
  unfold Tools.add_address_header.
  eapply traces_bind; [step |]. intros v _. destruct (truthy v); [| step].
  repeat (eapply traces_bind; [step | intros ? _]). step.
Qed.

Lemma traces_deliver m rcpts : traces ok (fun _ => True) (Tools.deliver w m rcpts).
Proof.
  unfold Tools.deliver. repeat (eapply traces_bind; [step | intros ? _]). step.
Qed.

Lemma traces_send_parsed v : traces ok (fun _ => True) (Tools.send_parsed w v).
Proof.
  unfold Tools.send_parsed.
  eapply traces_bind; [step |]. intros subject _.
  destruct (negb (truthy subject)); [step |].
  eapply traces_bind; [step |]. intros body _.
  destruct (negb (truthy body)); [step |].
  eapply traces_bind; [step |]. intros [|] _; [step |].
  unfold Tools.build_and_send.
  repeat (eapply traces_bind; [first [step | apply traces_add_header] | intros ? _]).
  first [apply traces_deliver | step].
Qed.

Lemma traces_send_tool text :
  ok (Invoke "send_email_smtp" text) ->
  traces ok (fun _ => True) (Tools.send_email_smtp w text).
Proof.
  intros Hinv. unfold Tools.send_email_smtp.
  eapply traces_bind; [apply traces_emit, Hinv |]. intros _ _.
  apply traces_try.
  - eapply traces_bind; [step |]. intros v _. apply traces_send_parsed.
  - intros e. apply traces_silent, silent_send_handler.
Qed.

Lemma traces_fill_missing default fields : forall email_data,
  traces ok (fun _ => True) (fill_missing default fields email_data).
Proof.
  induction fields as [|f rest IH]; intros email_data; cbn [fill_missing]; [step |].
  eapply traces_bind; [step |]. intros present _.
  eapply traces_bind; [destruct (negb present); step |]. intros email_data' _.
  apply IH.
Qed.

Lemma traces_attempt {A} (c : Py A) :
  traces ok (fun _ => True) c -> traces ok (fun _ => True) (attempt c).
Proof.
  intros Hc h. destruct (Hc h) as [Hes _]. unfold attempt.
  destruct (c h) as [r es]. cbn in *. auto.
Qed.

Lemma traces_chat model query :
  traces ok (fun _ => True) (chat_completions_create w model query).
Proof. intros h. cbn. split; [repeat constructor; apply ok_completion | auto]. Qed.

Lemma traces_generate_tool query :
  ok (Invoke "generate_email_content" query) ->
  traces ok (fun _ => True) (Tools.generate_email_content w query).
Proof.
  intros Hinv. unfold Tools.generate_email_content.
  eapply traces_bind; [apply traces_emit, Hinv |]. intros _ _.
  destruct (key_missing (OPENAI_API_KEY w)); [step |].
  eapply traces_bind.
  { apply traces_attempt.
    eapply traces_bind; [step |]. intros _ _.
    eapply traces_bind; [apply traces_chat |]. intros content _. step. }
  intros [email_content|e] _.
  - apply traces_try.
    + eapply traces_bind; [step |]. intros v _.
      eapply traces_bind; [apply traces_fill_missing |]. intros v1 _.
      eapply traces_bind; [step |]. intros to _.
      eapply traces_bind; [destruct (negb (truthy to)); step |]. intros v2 _. step.
    + intros e. apply traces_silent, silent_generate_handler.
  - apply traces_silent, silent_generate_handler.
Qed.

End ToolTraces.

(** *** The nodes of the graph *)

Section Graph.
Variable w : World.

Lemma within_calls_base calls :
  (forall c r, within_calls calls (Smtp c r))
  /\ (forall m r, within_calls calls (Render m r))
  /\ (forall model query r, within_calls calls (ChatCompletion model query r))
  /\ (forall text, within_calls calls (Print text)).
Proof. repeat split. Qed.

Lemma traces_run_tool calls call :
  In call calls ->
  traces (within_calls calls) (fun _ => True) (LangGraph.run_tool w call).
Proof.
  intros Hin. destruct (within_calls_base calls) as [Hs [Hr [Hc Hp]]].
  unfold LangGraph.run_tool.
  destruct (String.eqb (tc_name call) "generate_email_content") eqn:Egen.
  - eapply traces_bind; [| intros ? _; apply traces_ret; exact I].
    apply traces_generate_tool; auto. cbn. discriminate.
  - destruct (String.eqb (tc_name call) "send_email_smtp") eqn:Esend.
    + eapply traces_bind; [| intros ? _; apply traces_ret; exact I].
      apply traces_send_tool; auto. cbn. intros _.
      apply String.eqb_eq in Esend. destruct call as [name input]. cbn in *.
      subst name. exact Hin.
    + apply traces_ret. exact I.
Qed.

Lemma traces_tool_node calls : forall served_calls,
  incl served_calls calls ->
  traces (within_calls calls) (fun _ => True) (LangGraph.tool_node w served_calls).
Proof.
  induction served_calls as [|call rest IH]; intros Hincl; cbn [LangGraph.tool_node].
  - apply traces_ret. exact I.
  - eapply traces_bind; [apply traces_run_tool, Hincl; left; reflexivity |]. intros m _.
    eapply traces_bind; [apply IH; intros x Hx; apply Hincl; right; exact Hx |]. intros ms _.
    apply traces_ret. exact I.
Qed.

Lemma traces_print_tool_results calls : forall ms,
  traces (within_calls calls) (fun _ => True) (LangGraph.print_tool_results ms).
Proof.
  induction ms as [|m ms IH]; cbn [LangGraph.print_tool_results].
  - apply traces_ret. exact I.
  - destruct m; try exact IH.
    eapply traces_bind; [apply traces_emit; exact I |]. intros _ _. exact IH.
Qed.

Lemma monitored_call_model calls messages :
  monitored calls (LangGraph.call_model w messages)
    (fun response calls' => calls' = LangGraph.tool_calls_of response).
Proof.
  intros h. unfold LangGraph.call_model.
  destruct (ChatOpenAI_init w (OPENAI_API_KEY w)); cbn; [split; [reflexivity | discriminate] |].
  destruct (llm_invoke w h _) as [[content calls']|e]; cbn.
  - split; [reflexivity | intros ? [= <-]; reflexivity].
  - split; [reflexivity | discriminate].
Qed.

Lemma last_message_snoc messages m :
  LangGraph.last_message (messages ++ [m]) = Some m.
Proof.
  induction messages as [|x messages IH]; [reflexivity |].
  cbn [app LangGraph.last_message]. rewrite IH.
  destruct (messages ++ [m])%list eqn:E; [| reflexivity].
  destruct messages; discriminate.
Qed.

Lemma silent_should_continue messages : silent (LangGraph.should_continue messages).
Proof. unfold LangGraph.should_continue. silent_op. Qed.

Lemma monitored_stream : forall fuel nd messages calls,
  ready nd messages calls ->
  monitored calls (LangGraph.stream w fuel nd messages) (fun _ _ => True).
Proof.
  induction fuel as [|fuel IH]; intros nd messages calls Hready; cbn [LangGraph.stream].
  - intros h. cbn. split; [reflexivity | discriminate].
  - destruct nd.
    + eapply monitored_bind; [apply monitored_call_model |]. intros response calls' ->.
      eapply monitored_bind.
      { destruct (truthy (JStr (LangGraph.content_of response)));
          [apply monitored_print | apply monitored_ret; reflexivity]. }
      intros _ calls' ->.
      eapply monitored_bind.
      { apply monitored_traces, traces_silent, silent_should_continue. }
      intros next calls' [_ ->]. destruct next.
      * apply IH. cbn. intros last. rewrite last_message_snoc. intros [= <-].
        apply incl_refl.
      * apply monitored_ret. exact I.
    + eapply monitored_bind.
      { apply monitored_traces, traces_tool_node. cbn in Hready.
        destruct (LangGraph.last_message messages) as [last|];
          [apply Hready; reflexivity | intros x []]. }
      intros tool_messages calls' [_ ->].
      eapply monitored_bind.
      { apply monitored_traces, traces_print_tool_results. }
      intros _ calls' [_ ->]. apply IH. exact I.
Qed.

Lemma monitored_emit calls ev :
  monitored calls (emit ev) (fun _ calls' => calls' = latest_calls calls [ev])
  <-> served calls [ev] = true.
Proof.
  split.
  - intros H. apply (H []).
  - intros H h. cbn [emit snd fst]. split; [exact H | intros; reflexivity].
Qed.

Lemma monitored_loop : forall inputs calls,
  monitored calls (LangGraph.loop w inputs) (fun _ _ => True).
Proof.
  induction inputs as [|answer rest IH]; intros calls; cbn [LangGraph.loop].
  - apply monitored_ret. exact I.
  - eapply monitored_bind; [apply monitored_emit; reflexivity |]. intros _ calls' _.
    clear calls. revert calls'. intros calls.
    destruct answer as [user_input| |].
    + destruct (str_in (lower user_input) ["quit"; "exit"; "bye"]).
      { eapply monitored_bind; [apply monitored_print |]. intros _ calls' _.
        apply monitored_ret. exact I. }
      destruct (negb (truthy (JStr (strip user_input)))); [apply IH |].
      destruct (List.length (split (strip user_input)) <? 2)%nat.
      { repeat (eapply monitored_bind; [apply monitored_print | intros _ ? _]). apply IH. }
      eapply monitored_bind; [apply monitored_print |]. intros _ calls' _.
      eapply monitored_bind with (P := fun _ _ => True); [| intros; apply IH].
      apply monitored_try.
      * eapply monitored_bind; [apply monitored_stream; exact I |]. intros _ calls'' _.
        eapply monitored_weaken; [apply monitored_print | auto].
      * intros e calls''. eapply monitored_weaken; [apply monitored_print | auto].
    + eapply monitored_bind; [apply monitored_print |]. intros _ calls' _.
      apply monitored_ret. exact I.
    + eapply monitored_bind; [apply monitored_print |]. intros _ calls' _. apply IH.
Qed.

Lemma monitored_run_email_agent inputs calls :
  monitored calls (LangGraph.run_email_agent w inputs) (fun _ _ => True).
Proof.
  unfold LangGraph.run_email_agent.
  repeat (eapply monitored_bind; [apply monitored_print | intros _ ? _]).
  apply monitored_loop.
Qed.

End Graph.

(** What the monitor accepts is what [requested_by_model] asks. *)
Lemma served_sound : forall es calls pre arg post,
  served calls es = true ->
  es = (pre ++ Invoke "send_email_smtp" arg :: post)%list ->
  (forallb same_turn pre = true /\ In (ToolCall "send_email_smtp" arg) calls)
  \/ exists a msgs content calls' b,
       pre = (a ++ LLMInvoke msgs (Ret (content, calls')) :: b)%list
       /\ In (ToolCall "send_email_smtp" arg) calls'
       /\ forallb same_turn b = true.
Proof.
  induction es as [|ev es IH]; intros calls pre arg post Hs Heq.
  - destruct pre; discriminate.
  - destruct pre as [|ev' pre].
    + cbn in Heq. injection Heq as -> ->. cbn in Hs.
      apply andb_true_iff in Hs. destruct Hs as [Hs _].
      left. split; [reflexivity | apply existsb_tool_call, Hs].
    + cbn in Heq. injection Heq as <- ->.
      assert (Hkeep : forall ev,
        same_turn ev = true ->
        served calls (pre ++ Invoke "send_email_smtp" arg :: post) = true ->
        (forallb same_turn (ev :: pre) = true /\ In (ToolCall "send_email_smtp" arg) calls)
        \/ exists a msgs content calls' b,
             (ev :: pre) = (a ++ LLMInvoke msgs (Ret (content, calls')) :: b)%list
             /\ In (ToolCall "send_email_smtp" arg) calls'
             /\ forallb same_turn b = true).
      { intros ev0 Hev0 Hs0.
        destruct (IH calls pre arg post Hs0 eq_refl)
          as [[Hpre Hin] | (a0 & msgs0 & content0 & calls0 & b0 & Hpre & Hin & Hb)].
        - left. split; [cbn; rewrite Hev0; exact Hpre | exact Hin].
        - right. exists (ev0 :: a0), msgs0, content0, calls0, b0.
          rewrite Hpre. auto. }
      assert (Hreset : forall ev,
        served [] (pre ++ Invoke "send_email_smtp" arg :: post) = true ->
        exists a msgs content calls' b,
          (ev :: pre) = (a ++ LLMInvoke msgs (Ret (content, calls')) :: b)%list
          /\ In (ToolCall "send_email_smtp" arg) calls'
          /\ forallb same_turn b = true).
      { intros ev0 Hs0.
        destruct (IH [] pre arg post Hs0 eq_refl)
          as [[_ []] | (a0 & msgs0 & content0 & calls0 & b0 & Hpre & Hin & Hb)].
        exists (ev0 :: a0), msgs0, content0, calls0, b0. rewrite Hpre. auto. }
      destruct ev as [c r|model query r|msgs [[content calls']|e]|m r|tool arg'|a|text];
        cbn in Hs.
      * apply Hkeep; [reflexivity | exact Hs].
      * apply Hkeep; [reflexivity | exact Hs].
      * right.
        destruct (IH calls' pre arg post Hs eq_refl)
          as [[Hpre Hin] | (a0 & msgs0 & content0 & calls0 & b0 & Hpre & Hin & Hb)].
        -- exists [], msgs, content, calls', pre. auto.
        -- exists (LLMInvoke msgs (Ret (content, calls')) :: a0),
             msgs0, content0, calls0, b0. rewrite Hpre. auto.
      * right. apply Hreset, Hs.
      * apply Hkeep; [reflexivity | exact Hs].
      * apply andb_true_iff in Hs. destruct Hs as [_ Hs].
        apply Hkeep; [reflexivity | exact Hs].
      * right. apply Hreset, Hs.
      * apply Hkeep; [reflexivity | exact Hs].
Qed.

(** C1, amended.  In every run of the loop of email_langgraph.py, whatever
    the model and the user do, each entry into [send_email_smtp] serves a
    tool call of that name and argument in the latest reply of the model,
    with no terminal input and no other model call in between. *)
Theorem send_only_on_model_request (w : World) (inputs : list user_action)
    (h : list effect) :
  requested_by_model (snd (LangGraph.run_email_agent w inputs h)).
Proof.
  intros pre arg post Heq.
  destruct (monitored_run_email_agent w inputs [] h) as [Hs _].
  destruct (served_sound _ _ _ _ _ Hs Heq) as [[_ []] | H]. exact H.
Qed.

(** C1 as the specification states it fails: a model that answers the
    first request with a call of the send tool gets the mail sent, with no
    draft generated and no confirmation asked. *)
Lemma send_without_confirmation :
  ~ (forall (w : World) (inputs : list user_action),
        confirmation_gated (snd (LangGraph.run_email_agent w inputs []))).
Proof.
  intros H.
  specialize (H (Sample.world (Some "sk-test") "" Sample.eager_llm) [Line "send it now"]).
  set (es := snd (LangGraph.run_email_agent
                    (Sample.world (Some "sk-test") "" Sample.eager_llm)
                    [Line "send it now"] [])) in H.
  destruct (H (firstn 10 es) (Sample.dumps Sample.thanks_draft) (skipn 11 es) eq_refl)
    as (a & query & b & line & c & Heq).
  assert (Hin : In (Invoke "generate_email_content" query) (firstn 10 es)).
  { rewrite Heq. apply in_or_app. right. left. reflexivity. }
  vm_compute in Hin.
  repeat (destruct Hin as [Hin | Hin]; [discriminate |]). exact Hin.
Qed.

(** ** Nothing leaves the two tools as an exception *)

Lemma try_except_returns {A} (c : Py A) handler :
  (forall e h, exists a, handler e h = (Ret a, [])) ->
  forall h, exists a es, try_except c handler h = (Ret a, es).
Proof.
  intros Hh h. unfold try_except. destruct (c h) as [[a|e] es].
  - eauto.
  - destruct (Hh e (rev_append es h)) as [a ->]. eauto.
Qed.

Lemma send_handler_returns e h : exists a, Tools.send_handler e h = (Ret a, []).
Proof. unfold Tools.send_handler. destruct (exn_cls e); eexists; reflexivity. Qed.

Lemma generate_handler_returns w c e h :
  exists a, Tools.generate_handler w c e h = (Ret a, []).
Proof. unfold Tools.generate_handler. destruct (exn_cls e); eexists; reflexivity. Qed.

(** [send_email_smtp] returns a text on every input and in every world. *)
Lemma send_email_smtp_returns w text h :
  exists result es, Tools.send_email_smtp w text h = (Ret result, es).
Proof.
  unfold Tools.send_email_smtp.
  rewrite (bind_unfold _ _ h tt [Invoke "send_email_smtp" text]) by reflexivity.
  match goal with
  | |- context [try_except ?c ?hd ?h'] =>
      destruct (try_except_returns c hd send_handler_returns h') as [a [es ->]]
  end.
  do 2 eexists. reflexivity.
Qed.

(** So does [generate_email_content]. *)
Lemma generate_email_content_returns w query h :
  exists result es, Tools.generate_email_content w query h = (Ret result, es).
Proof.
  unfold Tools.generate_email_content.
  rewrite (bind_unfold _ _ h tt [Invoke "generate_email_content" query]) by reflexivity.
  cbn [rev_append]. destruct (key_missing (OPENAI_API_KEY w)); [do 2 eexists; reflexivity |].
  unfold bind at 1, attempt.
  match goal with
  | |- context [let (r, es) := ?c ?h' in (Ret r, es)] => destruct (c h') as [[email_content|e] es0]
  end.
  - match goal with
    | |- context [try_except ?c ?hd ?h'] =>
        destruct (try_except_returns c hd
                    (generate_handler_returns w (Some email_content)) h') as [a [es ->]]
    end.
    do 2 eexists. reflexivity.
  - destruct (generate_handler_returns w None e (rev_append es0 (rev_append [Invoke "generate_email_content" query] h)))
      as [a Ha].
    cbn in *. rewrite Ha. do 2 eexists. reflexivity.
Qed.

(** [generate_email] is not total in this way: a client that cannot be
    built raises out of the function, since it is built before the [try]. *)
Lemma generate_email_client_error w query model h e :
  OpenAI_init w (OPENAI_API_KEY w) = Some e ->
  EmailGeneration.generate_email w query model h = (Raise e, []).
Proof.
  intros H. unfold EmailGeneration.generate_email, bind, openai_client.
  rewrite H. reflexivity.
Qed.

(** ** Remarks on the loop and on smtp.py *)

(** A one-word answer such as [yes] is turned away by the loop before the
    graph runs: the model is not called. *)
Lemma one_word_turned_away w h :
  LangGraph.loop w [Line "yes"] h
  = (Ret LangGraph.AwaitingInput,
     [Input (Line "yes");
      Print "Please be more specific. For example:";
      Print "- 'Send email to john@company.com about the meeting'";
      Print "- 'Write a thank you email for the interview'";
      Print "- 'Send meeting reminder to the team'"]).
Proof. reflexivity. Qed.

(** Every turn starts the graph on the user's line alone: the first call
    to the model sees the instruction text and that line, nothing of the
    turns before. *)
Lemma turn_starts_afresh w user_input h :
  ChatOpenAI_init w (OPENAI_API_KEY w) = None ->
  exists r,
    snd (LangGraph.call_model w [HumanMessage user_input] h)
    = [LLMInvoke [HumanMessage (system_message w); HumanMessage user_input] r].
Proof.
  intros Hinit. unfold LangGraph.call_model. rewrite Hinit. cbn. eauto.
Qed.

(** [send_email] of smtp.py checks nothing before it opens the session:
    with an empty subject and body the transaction still runs. *)
Example send_email_has_no_checks :
  Smtp.send_email (Sample.world None "" Sample.silent_llm)
    (JStr "") (JStr "") (JStr "me@example.org") (JStr "secret") (JStr "pat@example.org") []
  = (Ret true,
     [Smtp (SmtpConnect "smtp.gmail.com" 587) None;
      Smtp SmtpStarttls None;
      Smtp (SmtpLogin (JStr "me@example.org") (JStr "secret")) None;
      Render (Mime [("Content-Type", JStr "multipart/mixed"); ("MIME-Version", JStr "1.0");
                    ("From", JStr "me@example.org"); ("To", JStr "pat@example.org");
                    ("Subject", JStr "")] [""])
             (Ret "");
      Smtp (SmtpSendmail (JStr "me@example.org") (JStr "pat@example.org") "") None;
      Smtp SmtpQuit None;
      Print "Email sent successfully!"]).
Proof. reflexivity. Qed.

(** A draft without a [priority] field is sent without priority headers. *)
Example absent_priority_no_markers :
  map priority_markers
    (rendered (snd (Tools.send_email_smtp (Sample.world None "" Sample.silent_llm)
                      (Sample.dumps Sample.no_priority_reply) []))) = [[]].
Proof. reflexivity. Qed.

(** Valid JSON that is not an object is reported by the general handler,
    without the raw text. *)
Example non_object_output :
  fst (EmailGeneration.generate_email
         (Sample.world (Some "sk-test") "null" Sample.silent_llm) "say hi" "gpt-3.5-turbo" [])
  = Ret (JObj [("error", JStr "API call failed: argument is not iterable")]).
Proof. reflexivity. Qed.

(** * Further properties of the code *)

(** ** The SMTP session of the send tool *)

Import Protocol Turns.

Lemma silent_cases {A} (c : Py A) h :
  silent c -> (exists e, c h = (Raise e, [])) \/ (exists a, c h = (Ret a, [])).
Proof.
  intros Hc. specialize (Hc h). destruct (c h) as [[a|e] es]; cbn in Hc; subst; eauto.
Qed.

Lemma silent_bind {A B} (c : Py A) (k : A -> Py B) :
  silent c -> (forall a, silent (k a)) -> silent (bind c k).
Proof.
  intros Hc Hk h. destruct (silent_cases c h Hc) as [[e He] | [a Ha]].
  - rewrite (bind_raise _ _ _ _ _ He). reflexivity.
  - rewrite (bind_ret_nil _ _ _ _ Ha). apply Hk.
Qed.

Lemma silent_add_address_header name key email_data m :
  silent (Tools.add_address_header name key email_data m).
Proof.
  unfold Tools.add_address_header.
  apply silent_bind; [apply silent_get |]. intros v.
  destruct (truthy v); [| apply silent_ret].
  apply silent_bind; [apply silent_getitem |]. intros v'.
  apply silent_bind; [apply silent_join |]. intros line. apply silent_ret.
Qed.

Lemma silent_extend_recipients key email_data acc :
  silent (Tools.extend_recipients key email_data acc).
Proof.
  unfold Tools.extend_recipients.
  apply silent_bind; [apply silent_get |]. intros v.
  destruct (truthy v); [| apply silent_ret].
  apply silent_bind; [apply silent_getitem |]. intros v'. apply silent_extend.
Qed.

Lemma truthy_len v n h :
  truthy v = true -> py_len v h = (Ret n, []) -> Nat.eqb n 0 = false.
Proof.
  destruct v as [| | |s|l|l]; cbn; try discriminate.
  - destruct s; cbn; [discriminate | intros _ [= <-]; reflexivity].
  - destruct l; cbn; [discriminate | intros _ [= <-]; reflexivity].
  - destruct l; cbn; [discriminate | intros _ [= <-]; reflexivity].
Qed.

Lemma no_recipient_result d h missing :
  Tools.no_recipient (JObj d) h = (Ret missing, []) ->
  missing = negb (truthy (dict_get_or "to" JNull d)).
Proof.
  unfold Tools.no_recipient.
  rewrite (bind_ret_nil _ _ h (dict_get_or "to" JNull d)) by reflexivity.
  destruct (truthy (dict_get_or "to" JNull d)) eqn:Ht; cbn [negb].
  - destruct (silent_cases _ h (silent_getitem "to" (JObj d))) as [[e He] | [v Hv]].
    + rewrite (bind_raise _ _ _ _ _ He). discriminate.
    + rewrite (bind_ret_nil _ _ _ _ Hv).
      assert (v = dict_get_or "to" JNull d) as ->.
      { cbn in Hv. unfold dict_get_or. destruct (dict_get "to" d); [| discriminate].
        injection Hv as ->. reflexivity. }
      destruct (silent_cases _ h (silent_len (dict_get_or "to" JNull d))) as [[e He] | [n Hn]].
      * rewrite (bind_raise _ _ _ _ _ He). discriminate.
      * rewrite (bind_ret_nil _ _ _ _ Hn). cbn. intros [= <-].
        apply (truthy_len _ _ _ Ht Hn).
  - cbn. intros [= <-]. reflexivity.
Qed.

Ltac silent_go H a Ha :=
  match goal with
  | |- context [bind ?c ?k ?h0] =>
      let e := fresh "e" in
      let He := fresh "He" in
      destruct (silent_cases c h0 H) as [[e He] | [a Ha]];
      [ left; rewrite (bind_raise _ _ _ _ _ He); eexists; reflexivity
      | rewrite (bind_ret_nil _ _ _ _ Ha) ]
  end.

(** How the [try] block of the send tool can go: it raises before any
    effect, or a check fails, or it comes to the SMTP session. *)
Lemma send_parsed_cases w v h :
  (exists e, Tools.send_parsed w v h = (Raise e, []))
  \/ (exists d msg,
         v = JObj d /\ first_failing_check d = Some msg
         /\ Tools.send_parsed w v h = (Ret msg, []))
  \/ (exists d b m rcpts,
         v = JObj d /\ first_failing_check d = None
         /\ dict_get "body" d = Some (JStr b)
         /\ Tools.send_parsed w v h = Tools.deliver w m rcpts h).
Proof.
  destruct v as [| | | | |d]; try (left; eexists; reflexivity).
  unfold Tools.send_parsed.
  rewrite (bind_ret_nil _ _ h (dict_get_or "subject" JNull d)) by reflexivity.
  destruct (truthy (dict_get_or "subject" JNull d)) eqn:Es; cbn [negb].
  2: { right; left. exists d. eexists. split; [reflexivity |].
       split; [unfold first_failing_check; rewrite Es |]; reflexivity. }
  rewrite (bind_ret_nil _ _ h (dict_get_or "body" JNull d)) by reflexivity.
  destruct (truthy (dict_get_or "body" JNull d)) eqn:Eb; cbn [negb].
  2: { right; left. exists d. eexists. split; [reflexivity |].
       split; [unfold first_failing_check; rewrite Es, Eb |]; reflexivity. }
  destruct (silent_cases _ h (silent_no_recipient (JObj d))) as [[e He] | [missing Hm]].
  { left. rewrite (bind_raise _ _ _ _ _ He). eexists. reflexivity. }
  rewrite (bind_ret_nil _ _ _ _ Hm). apply no_recipient_result in Hm. subst missing.
  destruct (truthy (dict_get_or "to" JNull d)) eqn:Et; cbn [negb].
  2: { right; left. exists d. eexists. split; [reflexivity |].
       split; [unfold first_failing_check; rewrite Es, Eb, Et |]; reflexivity. }
  unfold Tools.build_and_send.
  silent_go (silent_getitem "to" (JObj d)) to Hto.
  silent_go (silent_join ", " to) to_line Hline.
  silent_go (silent_getitem "subject" (JObj d)) subject Hsubject.
  match goal with |- context [Tools.add_address_header "Cc" "cc" ?x ?m] =>
    silent_go (silent_add_address_header "Cc" "cc" x m) m1 Hm1 end.
  silent_go (silent_add_address_header "Bcc" "bcc" (JObj d) m1) m2 Hm2.
  silent_go (silent_get "priority" (JStr "normal") (JObj d)) priority Hpriority.
  silent_go (silent_getitem "body" (JObj d)) body Hbody.
  silent_go (silent_MIMEText body) part Hpart.
  silent_go (silent_getitem "to" (JObj d)) to' Hto'.
  silent_go (silent_copy to') rc Hrc.
  silent_go (silent_extend_recipients "cc" (JObj d) rc) rc1 Hrc1.
  silent_go (silent_extend_recipients "bcc" (JObj d) rc1) rc2 Hrc2.
  right. right. exists d, part. do 2 eexists.
  split; [reflexivity |].
  split; [unfold first_failing_check; rewrite Es, Eb, Et; reflexivity |].
  split; [| reflexivity].
  cbn in Hbody. destruct (dict_get "body" d) as [x|]; [| discriminate].
  injection Hbody as ->. destruct body; try discriminate.
  injection Hpart as ->. reflexivity.
Qed.

Ltac in_cases H :=
  cbn in H;
  repeat (destruct H as [H | H];
          [ try discriminate; try (injection H as <- <-); try (injection H as <-) | ]);
  try contradiction.

(** The SMTP session of [deliver]: calls in order, the exception of a step
    that raised leaves [deliver], and a returned text means a completed
    transaction. *)
Lemma deliver_facts w m rcpts h :
  let run := Tools.deliver w m rcpts h in
  in_order session (smtp_log (snd run)) = true
  /\ (forall e, raised_in e (snd run) -> fst run = Raise e)
  /\ (forall s, fst run = Ret s -> transaction_completed (snd run) = true).
Proof.
  cbv [Tools.deliver bind smtp message_as_string ret].
  repeat (split_oracle; cbn [fst snd app rev_append]).
  all: try match goal with
           | |- context [py_join ", " ?r ?h0] =>
               let Hsil := fresh "Hsil" in
               pose proof (silent_join ", " r h0) as Hsil;
               destruct (py_join ", " r h0) as [[joined|e'] es];
               cbn in Hsil; subst es
           end.
  all: cbn; split; [reflexivity |]; split;
    [ intros e0 [[c Hin] | [m0 Hin]]; in_cases Hin; reflexivity
    | intros s0 Hs0; try discriminate; reflexivity ].
Qed.

Lemma send_handler_anywhere e h : Tools.send_handler e h = Tools.send_handler e [].
Proof. unfold Tools.send_handler. destruct (exn_cls e); reflexivity. Qed.

(** The send tool around its [try] block. *)
Lemma send_email_smtp_run w text h :
  Tools.send_email_smtp w text h
  = match json_loads w text with
    | inl msg => (Ret ("Error: Invalid email data format - " ++ msg),
                  [Invoke "send_email_smtp" text])
    | inr v =>
        let inner := Tools.send_parsed w v (Invoke "send_email_smtp" text :: h) in
        (match fst inner with
         | Ret s => Ret s
         | Raise e => fst (Tools.send_handler e [])
         end,
         Invoke "send_email_smtp" text :: snd inner)
    end.
Proof.
  unfold Tools.send_email_smtp.
  rewrite (bind_unfold _ _ h tt [Invoke "send_email_smtp" text]) by reflexivity.
  cbn [rev_append fst snd app]. unfold try_except, loads.
  destruct (json_loads w text) as [msg|v].
  - reflexivity.
  - rewrite (bind_ret_nil _ _ _ v) by reflexivity. cbn zeta.
    destruct (Tools.send_parsed w v _) as [[s|e] es]; cbn; [reflexivity |].
    rewrite send_handler_anywhere.
    destruct (send_handler_returns e []) as [a Ha]. rewrite Ha. cbn.
    rewrite app_nil_r. reflexivity.
Qed.

Lemma smtp_log_invoke tool arg es : smtp_log (Invoke tool arg :: es) = smtp_log es.
Proof. reflexivity. Qed.

(** X1. Each run of [send_email_smtp], and each run of [send_email] of
    smtp.py, holds at most one SMTP session, with its calls in the order
    connect, STARTTLS, login, sendmail, quit: a call is made only when the
    one before went through, and none follows a call that raised.  So the
    login is never sent before STARTTLS went through, and no mail before
    the login did. *)
Theorem smtp_session_in_order (w : World) (text : string)
    (subject body sender pw rcpt : json) (h : list effect) :
  in_order session (smtp_log (snd (Tools.send_email_smtp w text h))) = true
  /\ in_order session
       (smtp_log (snd (Smtp.send_email w subject body sender pw rcpt h))) = true.
Proof.
  split.
  - rewrite send_email_smtp_run. destruct (json_loads w text) as [msg|v]; [reflexivity |].
    cbn [snd]. rewrite smtp_log_invoke.
    destruct (send_parsed_cases w v (Invoke "send_email_smtp" text :: h))
      as [[e ->] | [(d & msg & _ & _ & ->) | (d & b & m & rc & _ & _ & _ & ->)]];
      try reflexivity.
    apply deliver_facts.
  - cbv [Smtp.send_email try_except bind smtp message_as_string MIMEText
         print emit ret raise attribute_error].
    destruct body; cbn; try reflexivity.
    repeat (split_oracle; cbn); reflexivity.
Qed.

(** X2. When an SMTP call or the rendering of the message raises, the text
    [send_email_smtp] returns is the one its [except] clauses give to that
    exception: the authentication, refused-recipients and lost-connection
    texts for the three named classes, the general text otherwise. *)
Theorem smtp_failure_reported (w : World) (text : string) (h : list effect) (e : exn) :
  raised_in e (snd (Tools.send_email_smtp w text h)) ->
  fst (Tools.send_email_smtp w text h) = fst (Tools.send_handler e [])
  /\ (exn_cls e = SMTPAuthenticationError ->
      fst (Tools.send_email_smtp w text h)
      = Ret "Error: SMTP authentication failed. Please check your email credentials.")
  /\ (exn_cls e = SMTPRecipientsRefused ->
      fst (Tools.send_email_smtp w text h)
      = Ret ("Error: Invalid recipient email addresses - " ++ exn_str e))
  /\ (exn_cls e = SMTPServerDisconnected ->
      fst (Tools.send_email_smtp w text h)
      = Ret "Error: SMTP server connection lost. Please try again.").
Proof.
  intros Hraised.
  assert (Hfst : fst (Tools.send_email_smtp w text h) = fst (Tools.send_handler e [])).
  { revert Hraised. rewrite send_email_smtp_run.
    destruct (json_loads w text) as [msg|v].
    { intros [[c Hin] | [m Hin]]; in_cases Hin. }
    cbn [fst snd].
    assert (Hinner : raised_in e (snd (Tools.send_parsed w v (Invoke "send_email_smtp" text :: h)))
                     -> fst (Tools.send_parsed w v (Invoke "send_email_smtp" text :: h)) = Raise e).
    { destruct (send_parsed_cases w v (Invoke "send_email_smtp" text :: h))
        as [[e0 ->] | [(d & msg & _ & _ & ->) | (d & b & m & rc & _ & _ & _ & ->)]].
      - intros [[c Hin] | [m Hin]]; in_cases Hin.
      - intros [[c Hin] | [m Hin]]; in_cases Hin.
      - apply deliver_facts. }
    intros Hr. rewrite Hinner; [reflexivity |].
    destruct Hr as [[c [Hin | Hin]] | [m [Hin | Hin]]]; try discriminate;
      [left | right]; eauto. }
  split; [exact Hfst |]. rewrite Hfst. unfold Tools.send_handler.
  repeat split; intros ->; reflexivity.
Qed.

Lemma smtp_failure_reported_witness :
  let w := Sample2.world (Ret None) None Sample2.bad_login Sample.silent_llm in
  let e := Exn SMTPAuthenticationError "(535, b'5.7.8 Username and Password not accepted')" in
  let run := Tools.send_email_smtp w (Sample.dumps Sample.thanks_draft) [] in
  fst run = fst (Tools.send_handler e [])
  /\ (exn_cls e = SMTPAuthenticationError ->
      fst run
      = Ret "Error: SMTP authentication failed. Please check your email credentials.")
  /\ (exn_cls e = SMTPRecipientsRefused ->
      fst run = Ret ("Error: Invalid recipient email addresses - " ++ exn_str e))
  /\ (exn_cls e = SMTPServerDisconnected ->
      fst run = Ret "Error: SMTP server connection lost. Please try again.").
Proof.
  apply (smtp_failure_reported
           (Sample2.world (Ret None) None Sample2.bad_login Sample.silent_llm)
           (Sample.dumps Sample.thanks_draft) []).
  left. exists (SmtpLogin (JStr "") (JStr "")). vm_compute. tauto.
Defined.

(** X3. [send_email_smtp] says "Email sent successfully" only after a
    completed transaction: connect, STARTTLS, login, sendmail and quit all
    went through. *)
Theorem success_means_completed (w : World) (text : string) (h : list effect) (s : string) :
  fst (Tools.send_email_smtp w text h) = Ret s ->
  String.prefix "Email sent successfully" s = true ->
  transaction_completed (snd (Tools.send_email_smtp w text h)) = true.
Proof.
  rewrite send_email_smtp_run. destruct (json_loads w text) as [msg|v].
  { cbn. intros [= <-]. discriminate. }
  cbn [fst snd].
  destruct (send_parsed_cases w v (Invoke "send_email_smtp" text :: h))
    as [[e ->] | [(d & msg & _ & Hcheck & ->) | (d & b & m & rc & _ & _ & _ & ->)]];
    cbn [fst snd].
  - unfold Tools.send_handler. destruct (exn_cls e); cbn; intros [= <-]; discriminate.
  - intros [= <-]. unfold first_failing_check in Hcheck.
    destruct (negb _); [injection Hcheck as <-; discriminate |].
    destruct (negb _); [injection Hcheck as <-; discriminate |].
    destruct (negb _); [injection Hcheck as <-; discriminate | discriminate].
  - destruct (deliver_facts w m rc (Invoke "send_email_smtp" text :: h)) as [_ [_ Hdone]].
    destruct (fst (Tools.deliver w m rc _)) as [s'|e] eqn:E.
    + intros _ _. apply (Hdone s' eq_refl).
    + unfold Tools.send_handler. destruct (exn_cls e); cbn; intros [= <-]; discriminate.
Qed.

Lemma success_means_completed_witness :
  transaction_completed
    (snd (Tools.send_email_smtp (Sample2.world (Ret None) None Sample2.no_fault Sample.silent_llm)
            (Sample.dumps Sample.thanks_draft) [])) = true.
Proof.
  apply (success_means_completed
           (Sample2.world (Ret None) None Sample2.no_fault Sample.silent_llm)
           (Sample.dumps Sample.thanks_draft) []
           "Email sent successfully to: pat@example.org, lee@example.org, pat@example.org").
  - reflexivity.
  - reflexivity.
Defined.

(** X4. [send_email_smtp] contacts the SMTP server only for a text that
    parses to a JSON object which passes the three checks and whose body is
    a string: a text that is not JSON, JSON that is not an object, a failed
    check or a body of another type all end before the connection opens. *)
Theorem smtp_only_for_checked_drafts (w : World) (text : string) (h : list effect) :
  smtp_log (snd (Tools.send_email_smtp w text h)) <> [] ->
  exists d b,
    json_loads w text = inr (JObj d)
    /\ first_failing_check d = None
    /\ dict_get "body" d = Some (JStr b).
Proof.
  rewrite send_email_smtp_run. destruct (json_loads w text) as [msg|v].
  { intros H. exfalso. apply H. reflexivity. }
  cbn [snd]. rewrite smtp_log_invoke.
  destruct (send_parsed_cases w v (Invoke "send_email_smtp" text :: h))
    as [[e ->] | [(d & msg & _ & _ & ->) | (d & b & m & rc & -> & Hcheck & Hbody & _)]].
  - intros H. exfalso. apply H. reflexivity.
  - intros H. exfalso. apply H. reflexivity.
  - intros _. exists d, b. auto.
Qed.

Lemma smtp_only_for_checked_drafts_witness :
  exists d b,
    json_loads (Sample2.world (Ret None) None Sample2.bad_login Sample.silent_llm)
      (Sample.dumps Sample.thanks_draft) = inr (JObj d)
    /\ first_failing_check d = None
    /\ dict_get "body" d = Some (JStr b).
Proof.
  apply (smtp_only_for_checked_drafts
           (Sample2.world (Ret None) None Sample2.bad_login Sample.silent_llm)
           (Sample.dumps Sample.thanks_draft) []).
  vm_compute. discriminate.
Defined.

(** ** Synthesis: failures of the service and odd answers *)

(** X5. No exception leaves [generate_email_content] or [send_email_smtp]:
    on every input, and whatever the completion service, the parser, the
    renderer and the SMTP server do, both return a text. *)
Theorem tools_never_raise (w : World) (arg : string) (h : list effect) :
  (exists result es, Tools.generate_email_content w arg h = (Ret result, es))
  /\ (exists result es, Tools.send_email_smtp w arg h = (Ret result, es)).
Proof.
  split; [apply generate_email_content_returns | apply send_email_smtp_returns].
Qed.

Section ServiceFailure.
Variable w : World.
Variables (query : string) (e : exn).
Hypothesis key_present : key_missing (OPENAI_API_KEY w) = false.
Hypothesis client_ok : OpenAI_init w (OPENAI_API_KEY w) = None.
Hypothesis fails : forall h model, chat_completion w h model query = Raise e.

Lemma generate_email_on_failure model h :
  EmailGeneration.generate_email w query model h
  = (fst (EmailGeneration.handler None e []), [ChatCompletion model query (Raise e)]).
Proof.
  unfold EmailGeneration.generate_email.
  rewrite (bind_ret_nil _ _ h tt) by (unfold openai_client; rewrite client_ok; reflexivity).
  rewrite (bind_unfold _ _ _ (Raise e) [ChatCompletion model query (Raise e)]).
  2: { cbv [attempt bind chat_completions_create]. rewrite fails. reflexivity. }
  cbn [rev_append]. unfold EmailGeneration.handler.
  destruct (exn_cls e); reflexivity.
Qed.

Lemma generate_email_content_on_failure h :
  Tools.generate_email_content w query h
  = (fst (Tools.generate_handler w None e []),
     [Invoke "generate_email_content" query;
      ChatCompletion "gpt-3.5-turbo" query (Raise e)]).
Proof.
  unfold Tools.generate_email_content.
  rewrite (bind_unfold _ _ h tt [Invoke "generate_email_content" query]) by reflexivity.
  cbn [rev_append]. rewrite key_present.
  rewrite (bind_unfold _ _ _ (Raise e) [ChatCompletion "gpt-3.5-turbo" query (Raise e)]).
  2: { cbv [attempt bind openai_client chat_completions_create ret].
       rewrite client_ok, fails. reflexivity. }
  cbn [rev_append]. unfold Tools.generate_handler.
  destruct (exn_cls e); reflexivity.
Qed.

End ServiceFailure.

(** X6. When the completion call itself raises an exception that is not a
    [JSONDecodeError], both synthesis functions return an error value that
    carries the text of the exception and no raw response:
    [generate_email] under "API call failed", [generate_email_content]
    under "Email generation failed". *)
Theorem completion_failure_reported (w : World) (query model : string) (e : exn)
    (h : list effect) :
  key_missing (OPENAI_API_KEY w) = false ->
  OpenAI_init w (OPENAI_API_KEY w) = None ->
  (forall h' model', chat_completion w h' model' query = Raise e) ->
  exn_cls e <> JSONDecodeError ->
  EmailGeneration.generate_email w query model h
  = (Ret (JObj [("error", JStr ("API call failed: " ++ exn_str e))]),
     [ChatCompletion model query (Raise e)])
  /\ Tools.generate_email_content w query h
     = (Ret (json_dumps w (JObj [("error", JStr ("Email generation failed: " ++ exn_str e))])),
        [Invoke "generate_email_content" query;
         ChatCompletion "gpt-3.5-turbo" query (Raise e)]).
Proof.
  intros Hkey Hclient Hfails Hcls. split.
  - rewrite (generate_email_on_failure w query e Hclient Hfails).
    unfold EmailGeneration.handler. destruct (exn_cls e); try reflexivity. contradiction.
  - rewrite (generate_email_content_on_failure w query e Hkey Hclient Hfails).
    unfold Tools.generate_handler. destruct (exn_cls e); try reflexivity. contradiction.
Qed.

Lemma completion_failure_reported_witness :
  let e := Exn OtherException "Connection error." in
  let w := Sample2.world (Raise e) None Sample2.no_fault Sample.silent_llm in
  EmailGeneration.generate_email w "thank pat" "gpt-3.5-turbo" []
  = (Ret (JObj [("error", JStr ("API call failed: " ++ exn_str e))]),
     [ChatCompletion "gpt-3.5-turbo" "thank pat" (Raise e)])
  /\ Tools.generate_email_content w "thank pat" []
     = (Ret (json_dumps w (JObj [("error", JStr ("Email generation failed: " ++ exn_str e))])),
        [Invoke "generate_email_content" "thank pat";
         ChatCompletion "gpt-3.5-turbo" "thank pat" (Raise e)]).
Proof.
  apply (completion_failure_reported
           (Sample2.world (Raise (Exn OtherException "Connection error.")) None
              Sample2.no_fault Sample.silent_llm)
           "thank pat" "gpt-3.5-turbo" (Exn OtherException "Connection error.") []).
  - reflexivity.
  - reflexivity.
  - intros; reflexivity.
  - discriminate.
Defined.

(** X7. When the completion call itself raises a [JSONDecodeError], so
    before [email_content] is assigned, [generate_email_content] returns
    the parse-error value with "No response" as raw response, while
    [generate_email] fails inside its handler: the unbound [email_content]
    raises [UnboundLocalError] out of the function. *)
Theorem decode_error_before_content (w : World) (query model : string) (e : exn)
    (h : list effect) :
  key_missing (OPENAI_API_KEY w) = false ->
  OpenAI_init w (OPENAI_API_KEY w) = None ->
  (forall h' model', chat_completion w h' model' query = Raise e) ->
  exn_cls e = JSONDecodeError ->
  (exists e', exn_cls e' = UnboundLocalError
              /\ EmailGeneration.generate_email w query model h
                 = (Raise e', [ChatCompletion model query (Raise e)]))
  /\ Tools.generate_email_content w query h
     = (Ret (json_dumps w
               (JObj [("error", JStr ("Failed to parse JSON response: " ++ exn_str e));
                      ("raw_response", JStr "No response")])),
        [Invoke "generate_email_content" query;
         ChatCompletion "gpt-3.5-turbo" query (Raise e)]).
Proof.
  intros Hkey Hclient Hfails Hcls. split.
  - rewrite (generate_email_on_failure w query e Hclient Hfails).
    unfold EmailGeneration.handler. rewrite Hcls. cbn. eexists. split; [| reflexivity]. reflexivity.
  - rewrite (generate_email_content_on_failure w query e Hkey Hclient Hfails).
    unfold Tools.generate_handler. rewrite Hcls. reflexivity.
Qed.

Lemma decode_error_before_content_witness :
  let e := Exn JSONDecodeError "Expecting value: line 1 column 1 (char 0)" in
  let w := Sample2.world (Raise e) None Sample2.no_fault Sample.silent_llm in
  (exists e', exn_cls e' = UnboundLocalError
              /\ EmailGeneration.generate_email w "thank pat" "gpt-3.5-turbo" []
                 = (Raise e', [ChatCompletion "gpt-3.5-turbo" "thank pat" (Raise e)]))
  /\ Tools.generate_email_content w "thank pat" []
     = (Ret (json_dumps w
               (JObj [("error", JStr ("Failed to parse JSON response: " ++ exn_str e));
                      ("raw_response", JStr "No response")])),
        [Invoke "generate_email_content" "thank pat";
         ChatCompletion "gpt-3.5-turbo" "thank pat" (Raise e)]).
Proof.
  apply (decode_error_before_content
           (Sample2.world (Raise (Exn JSONDecodeError "Expecting value: line 1 column 1 (char 0)"))
              None Sample2.no_fault Sample.silent_llm)
           "thank pat" "gpt-3.5-turbo"
           (Exn JSONDecodeError "Expecting value: line 1 column 1 (char 0)") []).
  - reflexivity.
  - reflexivity.
  - intros; reflexivity.
  - reflexivity.
Defined.

(** X8. A client that cannot be built: [generate_email] builds it before
    its [try], so the exception leaves the function and the completion
    service is not called; [generate_email_content] builds it inside, and
    returns the error value of its general handler. *)
Theorem client_failure (w : World) (query model : string) (e : exn) (h : list effect) :
  key_missing (OPENAI_API_KEY w) = false ->
  OpenAI_init w (OPENAI_API_KEY w) = Some e ->
  exn_cls e <> JSONDecodeError ->
  EmailGeneration.generate_email w query model h = (Raise e, [])
  /\ Tools.generate_email_content w query h
     = (Ret (json_dumps w (JObj [("error", JStr ("Email generation failed: " ++ exn_str e))])),
        [Invoke "generate_email_content" query]).
Proof.
  intros Hkey Hclient Hcls. split.
  - apply generate_email_client_error, Hclient.
  - unfold Tools.generate_email_content.
    rewrite (bind_unfold _ _ h tt [Invoke "generate_email_content" query]) by reflexivity.
    cbn [rev_append]. rewrite Hkey.
    rewrite (bind_ret_nil _ _ _ (Raise e)).
    2: { cbv [attempt bind openai_client]. rewrite Hclient. reflexivity. }
    unfold Tools.generate_handler. destruct (exn_cls e); try reflexivity. contradiction.
Qed.

Lemma client_failure_witness :
  let e := Exn OtherException "The api_key client option must be set" in
  let w := Sample2.world (Ret None) (Some e) Sample2.no_fault Sample.silent_llm in
  EmailGeneration.generate_email w "thank pat" "gpt-3.5-turbo" [] = (Raise e, [])
  /\ Tools.generate_email_content w "thank pat" []
     = (Ret (json_dumps w (JObj [("error", JStr ("Email generation failed: " ++ exn_str e))])),
        [Invoke "generate_email_content" "thank pat"]).
Proof.
  apply (client_failure
           (Sample2.world (Ret None) (Some (Exn OtherException "The api_key client option must be set"))
              Sample2.no_fault Sample.silent_llm)
           "thank pat" "gpt-3.5-turbo"
           (Exn OtherException "The api_key client option must be set") []).
  - reflexivity.
  - reflexivity.
  - discriminate.
Defined.

(** ** Synthesis: what comes back for a parsed object *)

Import Repair.

Lemma fill_missing_fold default fields : forall d h,
  fill_missing default fields (JObj d) h
  = (Ret (JObj (fold_left (fill_step default) fields d)), []).
Proof.
  induction fields as [|f rest IH]; intros d h; [reflexivity |].
  cbn [fill_missing fold_left]. unfold py_contains.
  rewrite (bind_ret_nil _ _ h (dict_mem f d)) by reflexivity.
  rewrite (bind_ret_nil _ _ h (JObj (fill_step default d f))).
  - apply IH.
  - unfold fill_step. destruct (dict_mem f d); reflexivity.
Qed.

Lemma fold_fill_get default f fields : forall d,
  dict_get f (fold_left (fill_step default) fields d)
  = match dict_get f d with
    | Some v => Some v
    | None => if str_in f fields then Some (default f) else None
    end.
Proof.
  induction fields as [|f0 rest IH]; intros d; cbn [fold_left].
  - cbn. destruct (dict_get f d); reflexivity.
  - rewrite IH. unfold fill_step, dict_mem, str_in. cbn [existsb].
    destruct (dict_get f0 d) as [v0|] eqn:E0.
    + destruct (dict_get f d) as [v|] eqn:E; [reflexivity |].
      destruct (String.eqb f f0) eqn:Ef; [| reflexivity].
      apply String.eqb_eq in Ef. congruence.
    + rewrite dict_get_set. destruct (String.eqb f f0) eqn:Ef.
      * apply String.eqb_eq in Ef. subst f0. rewrite E0. reflexivity.
      * destruct (dict_get f d); reflexivity.
Qed.

Lemma fill_get default f d :
  dict_get f (fill default d)
  = match dict_get f d with
    | Some v => Some v
    | None => if str_in f required_fields then Some (default f) else None
    end.
Proof. apply fold_fill_get. Qed.

Lemma str_in_In f l : In f l -> str_in f l = true.
Proof.
  intros H. unfold str_in. apply existsb_exists. exists f.
  split; [exact H | apply String.eqb_refl].
Qed.

Lemma fill_has_all default d : has_all_fields (JObj (fill default d)) = true.
Proof.
  apply has_all_fields_intro. intros f Hf. rewrite fill_get, (str_in_In _ _ Hf).
  destruct (dict_get f d); discriminate.
Qed.

Lemma repaired_get f d :
  dict_get f (repaired d)
  = if String.eqb f "to" && negb (truthy (dict_get_or "to" JNull (fill Tools.default_of d)))
    then Some (JArr [JStr "recipient@example.com"])
    else dict_get f (fill Tools.default_of d).
Proof.
  unfold repaired.
  destruct (truthy (dict_get_or "to" JNull (fill Tools.default_of d))); cbn [negb].
  - rewrite andb_false_r. reflexivity.
  - rewrite andb_true_r, dict_get_set. reflexivity.
Qed.

Lemma filled_to_truthy d :
  truthy (dict_get_or "to" JNull (fill Tools.default_of d))
  = truthy (dict_get_or "to" JNull d).
Proof.
  unfold dict_get_or. rewrite fill_get. destruct (dict_get "to" d); reflexivity.
Qed.

(** X9. For a completion that parses to a JSON object,
    [generate_email_content] calls the completion service once and returns
    the serialised object repaired: all six fields are there, each missing
    one with its default, the fields the answer had (but an empty [to])
    are kept, and [to] is never empty: the placeholder address stands in
    for a missing or empty one. *)
Theorem generated_draft (w : World) (query content : string) (d : list (string * json))
    (h : list effect) :
  key_missing (OPENAI_API_KEY w) = false ->
  OpenAI_init w (OPENAI_API_KEY w) = None ->
  (forall h' model, chat_completion w h' model query = Ret (Some content)) ->
  json_loads w (strip content) = inr (JObj d) ->
  Tools.generate_email_content w query h
  = (Ret (json_dumps w (JObj (repaired d))),
     [Invoke "generate_email_content" query;
      ChatCompletion "gpt-3.5-turbo" query (Ret (Some content))])
  /\ has_all_fields (JObj (repaired d)) = true
  /\ truthy (dict_get_or "to" JNull (repaired d)) = true
  /\ (truthy (dict_get_or "to" JNull d) = false ->
      dict_get "to" (repaired d) = Some (JArr [JStr "recipient@example.com"]))
  /\ (forall f v, dict_get f d = Some v ->
                  f <> "to" \/ truthy v = true ->
                  dict_get f (repaired d) = Some v)
  /\ (forall f, In f required_fields -> f <> "to" -> dict_get f d = None ->
                dict_get f (repaired d) = Some (Tools.default_of f)).
Proof.
  intros Hkey Hclient Hanswer Hparse.
  assert (Hto : exists to, dict_get "to" (fill Tools.default_of d) = Some to).
  { rewrite fill_get. destruct (dict_get "to" d); cbn; eauto. }
  destruct Hto as [to Hto].
  split.
  { unfold Tools.generate_email_content.
    rewrite (bind_unfold _ _ h tt [Invoke "generate_email_content" query]) by reflexivity.
    cbn [rev_append]. rewrite Hkey.
    rewrite (bind_unfold _ _ _ (Ret (strip content))
               [ChatCompletion "gpt-3.5-turbo" query (Ret (Some content))]).
    2: { cbv [attempt bind openai_client chat_completions_create str_strip ret].
         rewrite Hclient, Hanswer. reflexivity. }
    cbn [rev_append]. unfold try_except.
    rewrite (bind_ret_nil _ _ _ (JObj d)) by (unfold loads; rewrite Hparse; reflexivity).
    rewrite (bind_ret_nil _ _ _ (JObj (fill Tools.default_of d)))
      by apply fill_missing_fold.
    rewrite (bind_ret_nil _ _ _ to) by (unfold py_getitem; rewrite Hto; reflexivity).
    rewrite (bind_ret_nil _ _ _ (JObj (repaired d))); [reflexivity |].
    unfold repaired. cbv zeta. unfold dict_get_or. rewrite Hto.
    destruct (truthy to); reflexivity. }
  split.
  { apply has_all_fields_intro. intros f Hf. rewrite repaired_get.
    destruct (_ && _); [discriminate |].
    rewrite fill_get, (str_in_In _ _ Hf). destruct (dict_get f d); discriminate. }
  split.
  { unfold dict_get_or at 1. rewrite repaired_get. cbn [String.eqb Ascii.eqb Bool.eqb andb].
    destruct (truthy (dict_get_or "to" JNull (fill Tools.default_of d))) eqn:E;
      cbn [negb]; [| reflexivity].
    unfold dict_get_or in E. exact E. }
  split.
  { intros Hempty. rewrite repaired_get, filled_to_truthy, Hempty. reflexivity. }
  split.
  { intros f v Hf Hkeep. rewrite repaired_get, filled_to_truthy, fill_get, Hf.
    destruct (String.eqb f "to") eqn:E; [| reflexivity].
    apply String.eqb_eq in E. subst f.
    destruct Hkeep as [Hne | Hv]; [contradiction |].
    unfold dict_get_or. rewrite Hf, Hv. reflexivity. }
  { intros f Hf Hne Hnone. rewrite repaired_get, fill_get, Hnone, (str_in_In _ _ Hf).
    destruct (String.eqb f "to") eqn:E; [| reflexivity].
    apply String.eqb_eq in E. contradiction. }
Qed.

Lemma generated_draft_witness :
  let w := Sample2.world (Ret (Some (Sample.dumps Sample2.bare_reply))) None
             Sample2.no_fault Sample.silent_llm in
  let d := [("subject", JStr "Hi"); ("body", JStr "Hello")] in
  Tools.generate_email_content w "say hi" []
  = (Ret (json_dumps w (JObj (repaired d))),
     [Invoke "generate_email_content" "say hi";
      ChatCompletion "gpt-3.5-turbo" "say hi" (Ret (Some (Sample.dumps Sample2.bare_reply)))])
  /\ has_all_fields (JObj (repaired d)) = true
  /\ truthy (dict_get_or "to" JNull (repaired d)) = true
  /\ (truthy (dict_get_or "to" JNull d) = false ->
      dict_get "to" (repaired d) = Some (JArr [JStr "recipient@example.com"]))
  /\ (forall f v, dict_get f d = Some v ->
                  f <> "to" \/ truthy v = true ->
                  dict_get f (repaired d) = Some v)
  /\ (forall f, In f required_fields -> f <> "to" -> dict_get f d = None ->
                dict_get f (repaired d) = Some (Tools.default_of f)).
Proof.
  apply (generated_draft
           (Sample2.world (Ret (Some (Sample.dumps Sample2.bare_reply))) None
              Sample2.no_fault Sample.silent_llm)
           "say hi" (Sample.dumps Sample2.bare_reply)
           [("subject", JStr "Hi"); ("body", JStr "Hello")] []).
  - reflexivity.
  - reflexivity.
  - intros; reflexivity.
  - reflexivity.
Defined.

Example repaired_bare_reply :
  JObj (repaired [("subject", JStr "Hi"); ("body", JStr "Hello")]) = Sample2.bare_repaired.
Proof. reflexivity. Qed.

(** X10. For a completion that parses to a JSON object, [generate_email]
    calls the completion service once and returns the object with all six
    fields: what the answer had is kept as it is, a missing [to], [cc] or
    [bcc] becomes the empty list and any other missing field, [priority]
    too, the empty string.  Nothing is put into an empty [to]. *)
Theorem generate_email_result (w : World) (query model content : string)
    (d : list (string * json)) (h : list effect) :
  OpenAI_init w (OPENAI_API_KEY w) = None ->
  (forall h' model', chat_completion w h' model' query = Ret (Some content)) ->
  json_loads w (strip content) = inr (JObj d) ->
  EmailGeneration.generate_email w query model h
  = (Ret (JObj (fill EmailGeneration.default_of d)),
     [ChatCompletion model query (Ret (Some content))])
  /\ has_all_fields (JObj (fill EmailGeneration.default_of d)) = true
  /\ (forall f v, dict_get f d = Some v ->
                  dict_get f (fill EmailGeneration.default_of d) = Some v)
  /\ (forall f, In f ["to"; "cc"; "bcc"] -> dict_get f d = None ->
                dict_get f (fill EmailGeneration.default_of d) = Some (JArr []))
  /\ (forall f, In f ["subject"; "body"; "priority"] -> dict_get f d = None ->
                dict_get f (fill EmailGeneration.default_of d) = Some (JStr "")).
Proof.
  intros Hclient Hanswer Hparse. split.
  { unfold EmailGeneration.generate_email.
    rewrite (bind_ret_nil _ _ h tt) by (unfold openai_client; rewrite Hclient; reflexivity).
    rewrite (bind_unfold _ _ _ (Ret (strip content))
               [ChatCompletion model query (Ret (Some content))]).
    2: { cbv [attempt bind chat_completions_create str_strip ret].
         rewrite Hanswer. reflexivity. }
    cbn [rev_append]. unfold try_except.
    rewrite (bind_ret_nil _ _ _ (JObj d)) by (unfold loads; rewrite Hparse; reflexivity).
    rewrite (bind_ret_nil _ _ _ (JObj (fill EmailGeneration.default_of d)))
      by apply fill_missing_fold.
    reflexivity. }
  split; [apply fill_has_all |].
  split; [intros f v Hf; rewrite fill_get, Hf; reflexivity |].
  split; intros f Hf Hnone; rewrite fill_get, Hnone;
    cbn in Hf; repeat (destruct Hf as [<- | Hf]; [reflexivity |]); contradiction.
Qed.

Lemma generate_email_result_witness :
  let w := Sample2.world (Ret (Some (Sample.dumps Sample2.bare_reply))) None
             Sample2.no_fault Sample.silent_llm in
  let d := [("subject", JStr "Hi"); ("body", JStr "Hello")] in
  EmailGeneration.generate_email w "say hi" "gpt-3.5-turbo" []
  = (Ret (JObj (fill EmailGeneration.default_of d)),
     [ChatCompletion "gpt-3.5-turbo" "say hi" (Ret (Some (Sample.dumps Sample2.bare_reply)))])
  /\ has_all_fields (JObj (fill EmailGeneration.default_of d)) = true
  /\ (forall f v, dict_get f d = Some v ->
                  dict_get f (fill EmailGeneration.default_of d) = Some v)
  /\ (forall f, In f ["to"; "cc"; "bcc"] -> dict_get f d = None ->
                dict_get f (fill EmailGeneration.default_of d) = Some (JArr []))
  /\ (forall f, In f ["subject"; "body"; "priority"] -> dict_get f d = None ->
                dict_get f (fill EmailGeneration.default_of d) = Some (JStr "")).
Proof.
  apply (generate_email_result
           (Sample2.world (Ret (Some (Sample.dumps Sample2.bare_reply))) None
              Sample2.no_fault Sample.silent_llm)
           "say hi" "gpt-3.5-turbo" (Sample.dumps Sample2.bare_reply)
           [("subject", JStr "Hi"); ("body", JStr "Hello")] []).
  - reflexivity.
  - intros; reflexivity.
  - reflexivity.
Defined.

(** The repair loop on what is not a dict: it raises a [TypeError], or it
    changes nothing (a list or string in which every field name occurs). *)
Lemma fill_missing_non_object default fields : forall v h,
  (forall d, v <> JObj d) ->
  (exists e, exn_cls e = TypeError /\ fill_missing default fields v h = (Raise e, []))
  \/ fill_missing default fields v h = (Ret v, []).
Proof.
  induction fields as [|f rest IH]; intros v h Hv; [right; reflexivity |].
  cbn [fill_missing].
  destruct v as [| | |s|l|d]; try (left; eexists; split; [| reflexivity]; reflexivity).
  - unfold py_contains. rewrite (bind_ret_nil _ _ h (is_substring f s)) by reflexivity.
    destruct (is_substring f s); cbn [negb].
    + rewrite (bind_ret_nil _ _ h (JStr s)) by reflexivity. apply IH, Hv.
    + left. eexists. split; [| reflexivity]. reflexivity.
  - unfold py_contains.
    rewrite (bind_ret_nil _ _ h (existsb (fun x => eq_str x f) l)) by reflexivity.
    destruct (existsb _ l); cbn [negb].
    + rewrite (bind_ret_nil _ _ h (JArr l)) by reflexivity. apply IH, Hv.
    + left. eexists. split; [| reflexivity]. reflexivity.
  - exfalso. apply (Hv d). reflexivity.
Qed.

(** X11. When the completion is valid JSON but not an object (a list, a
    string, a number, [null]), [generate_email_content] never passes it on
    as a draft: it returns the error value of its general handler, with
    the text of a [TypeError] and no raw response. *)
Theorem non_object_rejected (w : World) (query content : string) (v : json)
    (h : list effect) :
  key_missing (OPENAI_API_KEY w) = false ->
  OpenAI_init w (OPENAI_API_KEY w) = None ->
  (forall h' model, chat_completion w h' model query = Ret (Some content)) ->
  json_loads w (strip content) = inr v ->
  (forall d, v <> JObj d) ->
  exists e,
    exn_cls e = TypeError
    /\ Tools.generate_email_content w query h
       = (Ret (json_dumps w (JObj [("error", JStr ("Email generation failed: " ++ exn_str e))])),
          [Invoke "generate_email_content" query;
           ChatCompletion "gpt-3.5-turbo" query (Ret (Some content))]).
Proof.
  intros Hkey Hclient Hanswer Hparse Hv.
  unfold Tools.generate_email_content.
  rewrite (bind_unfold _ _ h tt [Invoke "generate_email_content" query]) by reflexivity.
  cbn [rev_append]. rewrite Hkey.
  rewrite (bind_unfold _ _ _ (Ret (strip content))
             [ChatCompletion "gpt-3.5-turbo" query (Ret (Some content))]).
  2: { cbv [attempt bind openai_client chat_completions_create str_strip ret].
       rewrite Hclient, Hanswer. reflexivity. }
  cbn [rev_append fst snd app]. unfold try_except.
  rewrite (bind_ret_nil _ _ _ v) by (unfold loads; rewrite Hparse; reflexivity).
  cbv beta.
  destruct (fill_missing_non_object Tools.default_of required_fields v
              (ChatCompletion "gpt-3.5-turbo" query (Ret (Some content))
               :: Invoke "generate_email_content" query :: h) Hv)
    as [[e [Hcls Hrun]] | Hrun].
  - rewrite (bind_raise _ _ _ _ _ Hrun). exists e. split; [exact Hcls |].
    unfold Tools.generate_handler. rewrite Hcls. reflexivity.
  - rewrite (bind_ret_nil _ _ _ _ Hrun).
    assert (Hget : exists e, exn_cls e = TypeError
                             /\ forall h0, py_getitem "to" v h0 = (Raise e, [])).
    { destruct v as [| | | | |d]; try (eexists; split; [| reflexivity]; reflexivity).
      exfalso. apply (Hv d). reflexivity. }
    destruct Hget as [e [Hcls Hget]].
    rewrite (bind_raise _ _ _ _ _ (Hget _)). exists e. split; [exact Hcls |].
    unfold Tools.generate_handler. rewrite Hcls. reflexivity.
Qed.

Lemma non_object_rejected_witness :
  let w := Sample2.world (Ret (Some (Sample.dumps Sample2.list_reply))) None
             Sample2.no_fault Sample.silent_llm in
  exists e,
    exn_cls e = TypeError
    /\ Tools.generate_email_content w "say hi" []
       = (Ret (json_dumps w (JObj [("error", JStr ("Email generation failed: " ++ exn_str e))])),
          [Invoke "generate_email_content" "say hi";
           ChatCompletion "gpt-3.5-turbo" "say hi"
             (Ret (Some (Sample.dumps Sample2.list_reply)))]).
Proof.
  apply (non_object_rejected
           (Sample2.world (Ret (Some (Sample.dumps Sample2.list_reply))) None
              Sample2.no_fault Sample.silent_llm)
           "say hi" (Sample.dumps Sample2.list_reply) Sample2.list_reply []).
  - reflexivity.
  - reflexivity.
  - intros; reflexivity.
  - reflexivity.
  - discriminate.
Defined.

(** ** The two tools one after the other *)





Example placeholder_run :
  let w := Sample2.world (Ret (Some (Sample.dumps Sample2.bare_reply))) None
             Sample2.no_fault Sample.silent_llm in
  fst (Tools.send_email_smtp w (Sample.dumps Sample2.bare_repaired) [])
  = Ret "Email sent successfully to: recipient@example.com".
Proof. reflexivity. Qed.

(** ** The graph and the loop *)

Lemma traces_mono {A} (ok ok' : effect -> Prop) (Q : A -> Prop) (c : Py A) :
  (forall ev, ok ev -> ok' ev) -> traces ok Q c -> traces ok' Q c.
Proof.
  intros Hok Hc h. destruct (Hc h) as [Hes Hv]. split; [| exact Hv].
  eapply Forall_impl; [| exact Hes]. exact Hok.
Qed.

Section GraphTraces.
Variable w : World.
Variable ok : effect -> Prop.
Hypothesis ok_tools : forall ev, tool_effect ev -> ok ev.

Lemma traces_run_tool_any call :
  traces ok (fun _ => True) (LangGraph.run_tool w call).
Proof.
  unfold LangGraph.run_tool.
  destruct (String.eqb (tc_name call) "generate_email_content").
  - eapply traces_bind; [| intros ? _; apply traces_ret; exact I].
    apply traces_generate_tool; intros; apply ok_tools; exact I.
  - destruct (String.eqb (tc_name call) "send_email_smtp").
    + eapply traces_bind; [| intros ? _; apply traces_ret; exact I].
      apply traces_send_tool; intros; apply ok_tools; exact I.
    + apply traces_ret. exact I.
Qed.

Lemma traces_tool_node_any : forall calls,
  traces ok (fun _ => True) (LangGraph.tool_node w calls).
Proof.
  induction calls as [|call rest IH]; cbn [LangGraph.tool_node].
  - apply traces_ret. exact I.
  - eapply traces_bind; [apply traces_run_tool_any |]. intros m _.
    eapply traces_bind; [apply IH |]. intros ms _. apply traces_ret. exact I.
Qed.

Lemma traces_print_any text : traces ok (fun _ => True) (print text).
Proof. apply traces_emit, ok_tools. exact I. Qed.

Lemma traces_print_results_any : forall ms,
  traces ok (fun _ => True) (LangGraph.print_tool_results ms).
Proof.
  induction ms as [|m ms IH]; cbn [LangGraph.print_tool_results].
  - apply traces_ret. exact I.
  - destruct m; try exact IH.
    eapply traces_bind; [apply traces_print_any |]. intros _ _. exact IH.
Qed.

(** The message list [call_model] hands to the model. *)
Lemma traces_call_model messages :
  (forall r,
      ok (LLMInvoke (if match messages with [] => true | _ => false end
                        || negb (existsb LangGraph.is_AIMessage messages)
                     then HumanMessage (system_message w) :: messages
                     else messages) r)) ->
  traces ok (fun response => LangGraph.is_AIMessage response = true)
    (LangGraph.call_model w messages).
Proof.
  intros Hok h. unfold LangGraph.call_model.
  destruct (ChatOpenAI_init w (OPENAI_API_KEY w)); cbn; [split; [constructor | discriminate] |].
  split; [repeat constructor; apply Hok |].
  destruct (llm_invoke w h _) as [[content calls]|e]; [| discriminate].
  intros a [= <-]. reflexivity.
Qed.

End GraphTraces.

Lemma existsb_app_AI (l l' : list message) :
  existsb LangGraph.is_AIMessage (l ++ l')
  = existsb LangGraph.is_AIMessage l || existsb LangGraph.is_AIMessage l'.
Proof. apply existsb_app. Qed.

(** Once a reply of the model is in the state, every call of the turn gets
    the state as it is, and the state keeps its first message. *)
Lemma traces_stream_continues w user_input : forall fuel nd rest,
  existsb LangGraph.is_AIMessage rest = true ->
  traces (asked_with (continues user_input)) (fun _ => True)
    (LangGraph.stream w fuel nd (HumanMessage user_input :: rest)).
Proof.
  assert (Hok : forall ev, tool_effect ev -> asked_with (continues user_input) ev).
  { intros ev H. destruct ev; cbn in *; try contradiction; exact I. }
  induction fuel as [|fuel IH]; intros nd rest Hai; cbn [LangGraph.stream].
  - apply traces_raise.
  - destruct nd.
    + eapply traces_bind.
      { apply traces_call_model. intros r. cbn [existsb LangGraph.is_AIMessage orb].
        rewrite Hai. cbn. exists rest. auto. }
      intros response Hresp.
      eapply traces_bind.
      { destruct (truthy _); [apply traces_print_any, Hok | apply traces_ret; exact I]. }
      intros _ _.
      eapply traces_bind; [apply traces_silent, silent_should_continue |].
      intros [|] _; [| apply traces_ret; exact I].
      change ((HumanMessage user_input :: rest) ++ [response])%list
        with (HumanMessage user_input :: (rest ++ [response]))%list.
      apply IH. rewrite existsb_app_AI, Hai. reflexivity.
    + eapply traces_bind; [apply traces_tool_node_any, Hok |]. intros tool_messages _.
      eapply traces_bind; [apply traces_print_results_any, Hok |]. intros _ _.
      change ((HumanMessage user_input :: rest) ++ tool_messages)%list
        with (HumanMessage user_input :: (rest ++ tool_messages))%list.
      apply IH. rewrite existsb_app_AI, Hai. reflexivity.
Qed.

Lemma model_inputs_app es es' :
  model_inputs (es ++ es') = (model_inputs es ++ model_inputs es')%list.
Proof.
  induction es as [|ev es IH]; [reflexivity |].
  destruct ev; cbn; rewrite ?IH; reflexivity.
Qed.

Lemma model_inputs_forall P es :
  Forall (asked_with P) es -> Forall P (model_inputs es).
Proof.
  induction 1 as [|ev es Hev _ IH]; cbn; [constructor |].
  destruct ev; cbn in *; auto.
Qed.

Lemma bind_effects {A B} (c : Py A) (k : A -> Py B) h :
  snd (bind c k h)
  = (snd (c h) ++ match fst (c h) with
                  | Ret a => snd (k a (rev_append (snd (c h)) h))
                  | Raise _ => []
                  end)%list.
Proof.
  unfold bind. destruct (c h) as [[a|e] es]; cbn.
  - destruct (k a _); reflexivity.
  - rewrite app_nil_r. reflexivity.
Qed.

(** X13. Within one turn of email_langgraph.py the instruction text of
    [call_model] reaches the model on the first call only.  That call gets
    the instructions and the user's line; every later call of the turn
    gets the user's line followed by the replies and tool results so far,
    without the instructions. *)
Theorem instructions_on_first_call_only (w : World) (fuel : nat) (user_input : string)
    (h : list effect) :
  match model_inputs (snd (LangGraph.stream w fuel LangGraph.AgentNode
                             [HumanMessage user_input] h)) with
  | [] => True
  | first :: later =>
      first = [HumanMessage (system_message w); HumanMessage user_input]
      /\ Forall (continues user_input) later
  end.
Proof.
  destruct fuel as [|fuel]; [exact I |].
  cbn [LangGraph.stream]. rewrite bind_effects.
  unfold LangGraph.call_model at 1 2 3.
  destruct (ChatOpenAI_init w (OPENAI_API_KEY w)); [exact I |].
  cbn [existsb LangGraph.is_AIMessage orb negb snd fst app model_inputs].
  split; [reflexivity |].
  destruct (llm_invoke w h _) as [[content calls]|e]; [| constructor].
  cbn [rev_append]. rewrite bind_effects, model_inputs_app.
  apply Forall_app. split.
  { destruct (truthy _); cbn; constructor. }
  match goal with
  | |- context [fst (?c ?h0)] => destruct (c h0) as [[[]|e] es0]
  end; [| constructor]. cbn [fst snd].
  rewrite bind_effects, model_inputs_app.
  match goal with
  | |- context [snd (LangGraph.should_continue ?m ?h0)] =>
      pose proof (silent_should_continue m h0) as Hs;
      destruct (LangGraph.should_continue m h0) as [[[|]|e] es1];
      cbn in Hs; subst es1
  end; cbn [fst snd model_inputs app]; try constructor.
  apply model_inputs_forall.
  apply (traces_stream_continues w user_input fuel LangGraph.ToolsNode
           [AIMessage content calls] eq_refl).
Qed.

(** *** How often the model is called *)



Section Counting.
Context {A B : Type}.





End Counting.

Lemma tool_effect_no_model ev : tool_effect ev -> no_model ev.
Proof. destruct ev; cbn; auto. Qed.






(** The bound is reached: a model that asks for a tool in every reply is
    called 13 times, and the turn ends on the recursion limit. *)
Example thirteen_calls :
  let w := Sample2.world (Ret None) None Sample2.no_fault Sample2.busy_llm in
  model_calls (snd (LangGraph.stream w LangGraph.recursion_limit LangGraph.AgentNode
                      [HumanMessage "write to pat"] [])) = 13%nat
  /\ exists e, fst (LangGraph.stream w LangGraph.recursion_limit LangGraph.AgentNode
                      [HumanMessage "write to pat"] []) = Raise e
               /\ exn_cls e = GraphRecursionError.
Proof. split; [vm_compute; reflexivity | eexists; split; vm_compute; reflexivity]. Qed.

(** *** What the loop reads and when it stops *)

Lemma inputs_read_app es es' :
  inputs_read (es ++ es') = (inputs_read es ++ inputs_read es')%list.
Proof.
  induction es as [|ev es IH]; [reflexivity |].
  destruct ev; cbn; rewrite ?IH; reflexivity.
Qed.

Lemma inputs_read_none es : Forall no_input es -> inputs_read es = [].
Proof.
  induction 1 as [|ev es Hev _ IH]; [reflexivity |].
  destruct ev; cbn in *; try contradiction; exact IH.
Qed.

Lemma tool_effect_no_input ev : tool_effect ev -> no_input ev.
Proof. destruct ev; cbn; auto. Qed.

Lemma traces_stream_no_input w : forall fuel nd messages,
  traces no_input (fun _ => True) (LangGraph.stream w fuel nd messages).
Proof.
  induction fuel as [|fuel IH]; intros nd messages; cbn [LangGraph.stream].
  - apply traces_raise.
  - destruct nd.
    + eapply traces_bind; [apply traces_call_model; intros; exact I |].
      intros response _.
      eapply traces_bind.
      { destruct (truthy _);
          [apply traces_print_any, tool_effect_no_input | apply traces_ret; exact I]. }
      intros _ _.
      eapply traces_bind; [apply traces_silent, silent_should_continue |].
      intros [|] _; [apply IH | apply traces_ret; exact I].
    + eapply traces_bind; [apply traces_tool_node_any, tool_effect_no_input |].
      intros tool_messages _.
      eapply traces_bind; [apply traces_print_results_any, tool_effect_no_input |].
      intros _ _. apply IH.
Qed.

(** One turn of the loop: whatever happens in the graph, the [try] block
    of the loop body comes back, and it has not read the terminal. *)
Lemma turn_comes_back w user_input h :
  exists es,
    try_except
      (LangGraph.stream w LangGraph.recursion_limit LangGraph.AgentNode
         [HumanMessage user_input] ;;;
       print (LangGraph.times "-" 50))
      (fun e => print ("Error: " ++ exn_str e)) h
    = (Ret tt, es)
    /\ inputs_read es = [].
Proof.
  assert (Ht : traces no_input (fun _ => True)
                 (try_except
                    (LangGraph.stream w LangGraph.recursion_limit LangGraph.AgentNode
                       [HumanMessage user_input] ;;;
                     print (LangGraph.times "-" 50))
                    (fun e => print ("Error: " ++ exn_str e)))).
  { apply traces_try.
    - eapply traces_bind; [apply traces_stream_no_input |]. intros _ _.
      apply traces_print_any, tool_effect_no_input.
    - intros e. apply traces_print_any, tool_effect_no_input. }
  destruct (Ht h) as [Hes _]. revert Hes. unfold try_except.
  match goal with
  | |- context [match ?c h with _ => _ end] => destruct (c h) as [[[]|e] es]
  end; cbn [snd].
  - intros Hes. eexists. split; [reflexivity | apply inputs_read_none, Hes].
  - intros Hes. eexists. split; [reflexivity | apply inputs_read_none, Hes].
Qed.

(** X15. The loop of [run_email_agent] in email_langgraph.py never ends on
    an exception.  On a script of terminal answers it reads them in order
    up to and with the first exit word ([quit], [exit], [bye] in any case)
    or interrupt, and nothing after it; it has left the loop exactly when
    the script holds such an answer.  An end of input is not one: it is
    reported and the loop asks again. *)
Theorem loop_reads_until_exit (w : World) (inputs : list user_action) (h : list effect) :
  exists status es,
    LangGraph.run_email_agent w inputs h = (Ret status, es)
    /\ inputs_read es = until_exit inputs
    /\ (status = LangGraph.Exited <-> existsb is_exit inputs = true).
Proof.
  assert (Hloop : forall inputs h,
    exists status es,
      LangGraph.loop w inputs h = (Ret status, es)
      /\ inputs_read es = until_exit inputs
      /\ (status = LangGraph.Exited <-> existsb is_exit inputs = true)).
  { clear. induction inputs as [|answer rest IH]; intros h.
    - exists LangGraph.AwaitingInput, []. cbn. repeat split; discriminate.
    - cbn [LangGraph.loop until_exit existsb].
      rewrite (bind_unfold _ _ h tt [Input answer]) by reflexivity.
      cbn [rev_append]. destruct answer as [user_input| |]; cbn [is_exit].
      + unfold exit_word.
        destruct (str_in (lower user_input) ["quit"; "exit"; "bye"]).
        { do 2 eexists. split; [reflexivity |]. cbn. repeat split; reflexivity. }
        cbn [orb].
        destruct (negb (truthy (JStr (strip user_input)))).
        { destruct (IH (Input (Line user_input) :: h)) as (st & es & -> & Hread & Hst).
          do 2 eexists. split; [reflexivity |]. cbn. rewrite Hread. auto. }
        destruct (List.length (split (strip user_input)) <? 2)%nat.
        { repeat (erewrite bind_unfold by reflexivity; cbn [rev_append fst snd app]).
          match goal with
          | |- context [LangGraph.loop w rest ?h0] =>
              destruct (IH h0) as (st & es & -> & Hread & Hst)
          end.
          do 2 eexists. split; [reflexivity |]. cbn. rewrite Hread. auto. }
        erewrite bind_unfold by reflexivity. cbn [rev_append fst snd app].
        destruct (turn_comes_back w user_input
                    (Print "Processing your request..." :: Input (Line user_input) :: h))
          as (es1 & Hturn & Hread1).
        erewrite bind_unfold by exact Hturn.
        match goal with
        | |- context [LangGraph.loop w rest ?h0] =>
            destruct (IH h0) as (st & es & -> & Hread & Hst)
        end.
        do 2 eexists. split; [reflexivity |]. cbn.
        rewrite inputs_read_app, Hread1, Hread. auto.
      + do 2 eexists. split; [reflexivity |]. cbn. repeat split; reflexivity.
      + erewrite bind_unfold by reflexivity. cbn [rev_append fst snd app orb].
        match goal with
        | |- context [LangGraph.loop w rest ?h0] =>
            destruct (IH h0) as (st & es & -> & Hread & Hst)
        end.
        do 2 eexists. split; [reflexivity |]. cbn. rewrite Hread. auto. }
  unfold LangGraph.run_email_agent.
  repeat (erewrite bind_unfold by reflexivity; cbn [rev_append fst snd app]).
  match goal with
  | |- context [LangGraph.loop w inputs ?h0] =>
      destruct (Hloop inputs h0) as (st & es & -> & Hread & Hst)
  end.
  do 2 eexists. split; [reflexivity |]. cbn. auto.
Qed.



(** *** How a turn ends *)

Lemma bind_result {A B} (c : Py A) (k : A -> Py B) h :
  fst (bind c k h)
  = match fst (c h) with
    | Ret a => fst (k a (rev_append (snd (c h)) h))
    | Raise e => Raise e
    end.
Proof.
  unfold bind. destruct (c h) as [[a|e] es]; cbn; [| reflexivity].
  destruct (k a _); reflexivity.
Qed.

Lemma last_reply_app es es' :
  last_reply (es ++ es')
  = match last_reply es' with
    | Some r => Some r
    | None => last_reply es
    end.
Proof.
  induction es as [|ev es IH]; cbn.
  - destruct (last_reply es'); reflexivity.
  - destruct ev; cbn; rewrite ?IH; try reflexivity.
    destruct (last_reply es'); reflexivity.
Qed.

Lemma last_reply_none es : Forall no_model es -> last_reply es = None.
Proof.
  induction 1 as [|ev es Hev _ IH]; [reflexivity |].
  destruct ev; cbn in *; try contradiction; exact IH.
Qed.

Lemma no_model_effects {A} (c : Py A) (Q : A -> Prop) h :
  traces no_model Q c -> last_reply (snd (c h)) = None.
Proof. intros Hc. apply last_reply_none, Hc. Qed.

Lemma should_continue_snoc messages content calls h :
  LangGraph.should_continue (messages ++ [AIMessage content calls]) h
  = (Ret (match calls with [] => LangGraph.END | _ => LangGraph.ToTools end), []).
Proof.
  unfold LangGraph.should_continue. rewrite last_message_snoc.
  destruct calls; reflexivity.
Qed.

(** X17. A turn of the graph ends without an exception only on a reply of
    the model that carries no tool call: as long as the model asks for
    tools the graph goes on, up to the recursion limit. *)
Theorem turn_ends_on_plain_reply (w : World) (fuel : nat) (nd : LangGraph.node)
    (messages : list message) (h : list effect) :
  fst (LangGraph.stream w fuel nd messages h) = Ret tt ->
  exists content,
    last_reply (snd (LangGraph.stream w fuel nd messages h)) = Some (Ret (content, [])).
Proof.
  revert nd messages h. induction fuel as [|fuel IH]; intros nd messages h.
  - cbn. discriminate.
  - cbn [LangGraph.stream]. destruct nd.
    + rewrite bind_result, bind_effects.
      unfold LangGraph.call_model at 1 2 3 4 5.
      destruct (ChatOpenAI_init w (OPENAI_API_KEY w)); [cbn; discriminate |].
      cbn [fst snd].
      match goal with
      | |- context [llm_invoke w h ?m] => destruct (llm_invoke w h m) as [[content calls]|e]
      end; [| cbn; discriminate].
      cbn [rev_append app]. rewrite bind_result, bind_effects.
      assert (Hprint : forall h0,
        exists es, (if truthy (JStr (LangGraph.content_of (AIMessage content calls)))
                    then print ("Agent: " ++ LangGraph.content_of (AIMessage content calls))
                    else ret tt) h0 = (Ret tt, es)
                   /\ last_reply es = None).
      { intros h0. destruct (truthy _); eexists; split; reflexivity. }
      match goal with
      | |- context [fst (?c ?h0)] =>
          destruct (Hprint h0) as (es_p & Hp & Hnone)
      end.
      rewrite Hp. cbn [fst snd]. rewrite bind_result, bind_effects.
      rewrite !should_continue_snoc.
      destruct calls as [|call calls]; cbn [fst snd rev_append app].
      * intros _. exists content. cbn [last_reply].
        rewrite last_reply_app. cbn. rewrite Hnone. reflexivity.
      * intros Hret. destruct (IH _ _ _ Hret) as [content' Hlast].
        exists content'. cbn [last_reply]. rewrite !last_reply_app.
        cbn [last_reply app]. rewrite Hlast. reflexivity.
    + rewrite bind_result, bind_effects.
      match goal with
      | |- context [LangGraph.tool_node w ?calls ?h0] =>
          pose proof (no_model_effects _ _ h0
                        (traces_tool_node_any w no_model tool_effect_no_model calls)) as Hn1;
          destruct (LangGraph.tool_node w calls h0) as [[tool_messages|e] es1]
      end; [| cbn; discriminate].
      cbn [fst snd] in *. rewrite bind_result, bind_effects.
      match goal with
      | |- context [LangGraph.print_tool_results ?ms ?h0] =>
          pose proof (no_model_effects _ _ h0
                        (traces_print_results_any no_model tool_effect_no_model ms)) as Hn2;
          destruct (LangGraph.print_tool_results ms h0) as [[[]|e] es2]
      end; [| cbn; discriminate].
      cbn [fst snd] in *.
      intros Hret. destruct (IH _ _ _ Hret) as [content' Hlast].
      exists content'. rewrite !last_reply_app, Hlast. reflexivity.
Qed.

Lemma turn_ends_on_plain_reply_witness :
  exists content,
    last_reply
      (snd (LangGraph.stream (Sample.world (Some "sk-test") "" Sample.eager_llm)
              LangGraph.recursion_limit LangGraph.AgentNode
              [HumanMessage "send it now"] []))
    = Some (Ret (content, [])).
Proof.
  apply (turn_ends_on_plain_reply (Sample.world (Some "sk-test") "" Sample.eager_llm)).
  vm_compute. reflexivity.
Defined.

(** ** The message of the send tool and smtp.py without checks *)

Lemma headers_set_priority p m :
  mime_headers (Tools.set_priority p m) = (mime_headers m ++ markers_for p)%list.
Proof.
  unfold Tools.set_priority, markers_for.
  destruct (eq_str p "high"); [| destruct (eq_str p "low")]; cbn;
    rewrite <- ?app_assoc, ?app_nil_r; reflexivity.
Qed.

Lemma parts_set_priority p m : mime_parts (Tools.set_priority p m) = mime_parts m.
Proof.
  unfold Tools.set_priority.
  destruct (eq_str p "high"); [| destruct (eq_str p "low")]; reflexivity.
Qed.

Section ExactMessage.
Variable w : World.
Variables (d : list (string * json)) (to cc bcc : list string).
Hypothesis valid : valid_draft d to cc bcc.

Lemma add_address_header_exact name key l m h :
  dict_get_or key (JArr []) d = addresses l ->
  Tools.add_address_header name key (JObj d) m h
  = (Ret (Mime (mime_headers m ++ address_header name l) (mime_parts m)), []).
Proof.
  intros H. unfold Tools.add_address_header, py_get, py_getitem, py_join, dict_get_or,
    bind, ret, address_header.
  destruct (optional_list d _ _ H) as [[-> ->] | ->]; cbn.
  - rewrite app_nil_r. destruct m; reflexivity.
  - destruct l as [|x l]; cbn.
    + rewrite app_nil_r. destruct m; reflexivity.
    + rewrite all_strings_map. reflexivity.
Qed.

Lemma build_and_send_exact s b h :
  dict_get "subject" d = Some (JStr s) ->
  dict_get "body" d = Some (JStr b) ->
  exists m,
    Tools.build_and_send w (JObj d) h = Tools.deliver w m (addresses (to ++ cc ++ bcc)) h
    /\ mime_parts m = [b]
    /\ mime_headers m
       = ([("Content-Type", JStr "multipart/mixed"); ("MIME-Version", JStr "1.0");
           ("From", JStr Tools.SENDER_EMAIL);
           ("To", JStr (String.concat ", " to));
           ("Subject", JStr s)]
          ++ address_header "Cc" cc
          ++ address_header "Bcc" bcc
          ++ markers_for (dict_get_or "priority" (JStr "normal") d))%list.
Proof.
  intros Hs Hb.
  destruct valid as [_ _ [Hto _] Hcc Hbcc].
  unfold Tools.build_and_send.
  rewrite (bind_ret_nil _ _ h (addresses to)) by (cbn; rewrite Hto; reflexivity).
  rewrite (bind_ret_nil _ _ h (String.concat ", " to))
    by (cbn; rewrite all_strings_map; reflexivity).
  rewrite (bind_ret_nil _ _ h (JStr s)) by (cbn; rewrite Hs; reflexivity).
  rewrite (bind_ret_nil _ _ h _ (add_address_header_exact "Cc" "cc" cc _ h Hcc)).
  rewrite (bind_ret_nil _ _ h _ (add_address_header_exact "Bcc" "bcc" bcc _ h Hbcc)).
  rewrite (bind_ret_nil _ _ h (dict_get_or "priority" (JStr "normal") d)) by reflexivity.
  rewrite (bind_ret_nil _ _ h (JStr b)) by (cbn; rewrite Hb; reflexivity).
  rewrite (bind_ret_nil _ _ h b) by reflexivity.
  rewrite (bind_ret_nil _ _ h (addresses to)) by (cbn; rewrite Hto; reflexivity).
  rewrite (bind_ret_nil _ _ h (addresses to)) by reflexivity.
  rewrite (bind_ret_nil _ _ h (addresses (to ++ cc)))
    by (apply (extend_recipients_valid d); exact Hcc).
  rewrite (bind_ret_nil _ _ h (addresses ((to ++ cc) ++ bcc)))
    by (apply (extend_recipients_valid d); exact Hbcc).
  rewrite <- app_assoc. eexists. split; [reflexivity |]. split.
  - cbn. rewrite parts_set_priority. reflexivity.
  - cbn [attach mime_headers]. rewrite headers_set_priority. cbn.
    rewrite <- !app_assoc. reflexivity.
Qed.

End ExactMessage.

Lemma traces_deliver_renders_only w m rcpts :
  traces (renders_only m) (fun _ => True) (Tools.deliver w m rcpts).
Proof.
  unfold Tools.deliver.
  repeat (eapply traces_bind;
          [first [apply traces_smtp; intros; exact I
                 | apply traces_render; intros; reflexivity
                 | apply traces_silent, silent_join] | intros ? _]).
  apply traces_ret. exact I.
Qed.

Lemma rendered_only m0 es m :
  Forall (renders_only m0) es -> In m (rendered es) -> m = m0.
Proof.
  induction 1 as [|ev es Hev _ IH]; cbn; [tauto |].
  destruct ev; cbn in *; auto. intros [<- | Hin]; auto.
Qed.

(** X18. The message [send_email_smtp] renders for a valid draft: the body
    as its one part, and the headers Content-Type, MIME-Version, From, To
    and Subject, then Cc and Bcc when those lists are not empty, then the
    priority headers.  In particular the [bcc] addresses are written into
    the Bcc header of the one message that goes to every recipient. *)
Theorem message_of_valid_draft (w : World) (text : string) (d : list (string * json))
    (to cc bcc : list string) (s b : string) (h : list effect) (m : mime) :
  json_loads w text = inr (JObj d) ->
  valid_draft d to cc bcc ->
  dict_get "subject" d = Some (JStr s) ->
  dict_get "body" d = Some (JStr b) ->
  In m (rendered (snd (Tools.send_email_smtp w text h))) ->
  mime_parts m = [b]
  /\ mime_headers m
     = ([("Content-Type", JStr "multipart/mixed"); ("MIME-Version", JStr "1.0");
         ("From", JStr Tools.SENDER_EMAIL);
         ("To", JStr (String.concat ", " to));
         ("Subject", JStr s)]
        ++ address_header "Cc" cc
        ++ address_header "Bcc" bcc
        ++ markers_for (dict_get_or "priority" (JStr "normal") d))%list.
Proof.
  intros Hparse Hvalid Hs Hb Hin.
  destruct (send_email_smtp_parsed w text (JObj d) h Hparse) as [Hes _].
  rewrite (send_parsed_valid w d to cc bcc _ Hvalid) in Hes.
  destruct (build_and_send_exact w d to cc bcc Hvalid s b
              (Invoke "send_email_smtp" text :: h) Hs Hb) as (m0 & Hm0 & Hparts & Hheaders).
  rewrite Hm0 in Hes. rewrite Hes in Hin. cbn [rendered] in Hin.
  assert (m = m0) as ->.
  { eapply rendered_only; [| exact Hin]. apply traces_deliver_renders_only. }
  split; assumption.
Qed.

Lemma message_of_valid_draft_witness :
  mime_parts Sample.thanks_message = ["Thank you for the meeting."]
  /\ mime_headers Sample.thanks_message
     = ([("Content-Type", JStr "multipart/mixed"); ("MIME-Version", JStr "1.0");
         ("From", JStr Tools.SENDER_EMAIL);
         ("To", JStr (String.concat ", " ["pat@example.org"]));
         ("Subject", JStr "Thank you")]
        ++ address_header "Cc" ["lee@example.org"]
        ++ address_header "Bcc" ["pat@example.org"]
        ++ markers_for (JStr "urgent"))%list.
Proof.
  apply (message_of_valid_draft
           (Sample.world None "" Sample.silent_llm)
           (Sample.dumps Sample.thanks_draft)
           [("subject", JStr "Thank you");
            ("body", JStr "Thank you for the meeting.");
            ("to", JArr [JStr "pat@example.org"]);
            ("cc", JArr [JStr "lee@example.org"]);
            ("bcc", JArr [JStr "pat@example.org"]);
            ("priority", JStr "urgent")]
           ["pat@example.org"] ["lee@example.org"] ["pat@example.org"]
           "Thank you" "Thank you for the meeting." [] Sample.thanks_message).
  - reflexivity.
  - constructor.
    + exists "Thank you". split; [reflexivity | discriminate].
    + exists "Thank you for the meeting.". split; [reflexivity | discriminate].
    + split; [reflexivity | discriminate].
    + reflexivity.
    + reflexivity.
  - reflexivity.
  - reflexivity.
  - vm_compute. left. reflexivity.
Defined.

(** X19. [send_email] of smtp.py checks nothing: it opens the connection
    to smtp.gmail.com exactly when the body is a string, whatever the
    subject, the sender, the password and the recipient are, empty ones
    too. *)
Theorem send_email_is_unchecked (w : World) (subject body sender pw rcpt : json)
    (h : list effect) :
  (exists b, body = JStr b)
  <-> (exists r rest,
          smtp_log (snd (Smtp.send_email w subject body sender pw rcpt h))
          = (SmtpConnect "smtp.gmail.com" 587, r) :: rest).
Proof.
  cbv [Smtp.send_email try_except bind smtp message_as_string MIMEText
       print emit ret raise attribute_error].
  split.
  - intros [b ->]. cbn. repeat (split_oracle; cbn); do 2 eexists; reflexivity.
  - destruct body; cbn; try (intros (r & rest & H); discriminate).
    intros _. eexists. reflexivity.
Qed.
